(** * gridsome-source-notion-api: the block-to-document engine

    A shallow embedding of [src/index.js] (class [NotionAPIPlugin]) and the
    properties of it stated by the specification.

    Layout of the development:
    - [Js]       : the fragment of JavaScript values, objects and string
                   built-ins the plugin relies on;
    - [Pipe]     : the [pipeExtend] combinator of the or-pipets package;
    - the plugin : [stylize], [blockToString], [getNotionPageProperties],
                   [notionBlockToMarkdown], [getBlocks], [getPages];
    - the theorems, grouped by component. *)

From Stdlib Require Import String Ascii List Bool Arith NArith Sorted Lia.
From stdpp Require Import base option gmap strings.
Import ListNotations.
Local Open Scope string_scope.
Local Open Scope list_scope.

Set Warnings "-register-all".

(* ===================================================================== *)
(** * JavaScript values and built-ins *)
(* ===================================================================== *)

Module Js.

(** The values that flow through a span context: [undefined], [null],
    booleans, strings and plain objects (a link is [{url: ...}]). *)
Inductive Value : Type :=
| VUndefined
| VNull
| VBool (b : bool)
| VString (s : string)
| VObject (fields : gmap string Value).

(** ToBoolean. *)
Definition truthy (v : Value) : bool :=
  match v with
  | VUndefined | VNull => false
  | VBool b => b
  | VString s => negb (String.eqb s EmptyString)
  | VObject _ => true
  end.

(** ToString, as performed by a template literal [`${v}`] and by
    [String.prototype.concat]. *)
Definition toString (v : Value) : string :=
  match v with
  | VUndefined => "undefined"
  | VNull => "null"
  | VBool true => "true"
  | VBool false => "false"
  | VString s => s
  | VObject _ => "[object Object]"
  end.

(** [v != s] for a string literal [s] that is not numeric: only a string
    equal to [s] compares equal ([undefined], [null] and booleans never do;
    an object is compared through its string form). *)
Definition looseNotEqual (v : Value) (s : string) : bool :=
  negb (match v with
        | VString t => String.eqb t s
        | VObject _ => String.eqb "[object Object]" s
        | _ => false
        end).

(** [s.startsWith(p)] and [s.endsWith(p)]. *)
Definition startsWith (s p : string) : bool := String.prefix p s.

Definition endsWith (s p : string) : bool :=
  let n := String.length s in
  let m := String.length p in
  (m <=? n)%nat && String.eqb (String.substring (n - m) m s) p.

(** [s.repeat(n)]. *)
Fixpoint repeat (s : string) (n : nat) : string :=
  match n with
  | O => EmptyString
  | S k => s +:+ repeat s k
  end.

(** The double quote character, for the HTML attributes the plugin
    writes. *)
Definition dq : string := String (ascii_of_nat 34) EmptyString.

End Js.
Import Js.

(** A plain object: own string keys to values.  [obj[key]] is [get]. *)
Abbreviation Obj := (gmap string Value).

Definition get (key : string) (obj : Obj) : Value :=
  default VUndefined (obj !! key).

(** Object spread [{...a, ...b}]: the keys of [b] win. *)
Definition spread (a b : Obj) : Obj := b ∪ a.

(* ===================================================================== *)
(** * or-pipets: [pipeExtend] *)
(* ===================================================================== *)

(** The package is a dependency of the plugin, not part of its sources.  Its
    documented behaviour is modelled: a pipe is a chain of unary functions;
    [pipeExtend f] runs [f] on the argument and passes on the argument
    extended with (and overridden by) the keys of the result,
    [{...arg, ...f(arg)}]; [process] runs the chain on a value. *)
Module Pipe.

Record t : Type := mk { process : Obj -> Obj }.

Definition extend (f : Obj -> Obj) (arg : Obj) : Obj := spread arg (f arg).

(** [pipeExtend(f)] *)
Definition pipeExtend (f : Obj -> Obj) : t := mk (extend f).

(** [p.pipeExtend(f)] *)
Definition andThen (p : t) (f : Obj -> Obj) : t :=
  mk (fun arg => extend f (process p arg)).

End Pipe.

(** [p |> f] reads [p.pipeExtend(f)]. *)
Infix "|>" := Pipe.andThen (at level 50, left associativity).

(* ===================================================================== *)
(** * Annotation pipeline: [stylize] *)
(* ===================================================================== *)

(** [const pick = (key) => (obj) => obj[key]] *)
Definition pick (key : string) : Obj -> Value := fun obj => get key obj.

(** [const ifTrue = (predicate, transformer, orElse) => (data) =>
       predicate(data) ? transformer(data) : orElse(data)] *)
Definition ifTrue (predicate : Obj -> Value) (transformer orElse : Obj -> Obj)
  : Obj -> Obj :=
  fun data => if truthy (predicate data) then transformer data else orElse data.

(** [const returnOrigin = (x) => x] *)
Definition returnOrigin : Obj -> Obj := fun x => x.

(** The object literal [{ content: c }]. *)
Definition contentOnly (c : string) : Obj := {[ "content" := VString c ]}.

(** The text each transformer builds from the destructured [content]
    (and [color], [link]). *)
Definition wrap (l r : string) (data : Obj) : Obj :=
  contentOnly (l +:+ toString (get "content" data) +:+ r).

Definition annotateEquation : Obj -> Obj :=
  ifTrue (pick "equation") (wrap "$" "$") returnOrigin.

Definition annotateBold : Obj -> Obj :=
  ifTrue (pick "bold") (wrap "**" "**") returnOrigin.

Definition annotateItalic : Obj -> Obj :=
  ifTrue (pick "italic") (wrap "_" "_") returnOrigin.

Definition annotateCode : Obj -> Obj :=
  ifTrue (pick "code") (wrap "`" "`") returnOrigin.

Definition annotateStrikethrough : Obj -> Obj :=
  ifTrue (pick "strikethrough") (wrap "~~" "~~") returnOrigin.

Definition annotateUnderline : Obj -> Obj :=
  ifTrue (pick "underline") (wrap "<u>" "</u>") returnOrigin.

(** [({ color }) => color != "default"] *)
Definition colorIsSet : Obj -> Value :=
  fun data => VBool (looseNotEqual (get "color" data) "default").

Definition annotateColor : Obj -> Obj :=
  ifTrue colorIsSet
    (fun data =>
       wrap ("<span notion-color=" +:+ dq +:+ toString (get "color" data)
               +:+ dq +:+ ">")
            "</span>" data)
    returnOrigin.

(** [link.url ? link.url : link] *)
Definition linkTarget (link : Value) : Value :=
  let url := match link with
             | VObject fields => get "url" fields
             | _ => VUndefined
             end in
  if truthy url then url else link.

Definition annotateLink : Obj -> Obj :=
  ifTrue (pick "link")
    (fun data =>
       wrap "[" ("](" +:+ toString (linkTarget (get "link" data)) +:+ ")") data)
    returnOrigin.

(** [get stylize()] *)
Definition stylize : Pipe.t :=
  Pipe.pipeExtend annotateBold
    |> annotateItalic
    |> annotateCode
    |> annotateStrikethrough
    |> annotateUnderline
    |> annotateColor
    |> annotateLink
    |> annotateEquation.

(* ===================================================================== *)
(** * Inline text renderer: [blockToString] *)
(* ===================================================================== *)

(** [textBlock.mention]: the sub-kind tag and, for a date, [date.start] and
    [date.end] (only the truthiness of [end] is read). *)
Inductive Mention : Type :=
| MentionUser
| MentionDate (start : string) (end_ : Value)
| MentionPage
| MentionOther (type : string).

(** [textBlock.type] with the payload stored under that tag. *)
Inductive TextBlockType : Type :=
| TypeText
| TypeEquation (expression : string)
| TypeMention (mention : Mention).

(** One span of a rich-text array.  [tb_text] and [tb_annotations] are the
    objects spread into the span context; an absent one spreads as the
    empty object. *)
Record TextBlock : Type := mkTextBlock {
  tb_type : TextBlockType;
  plain_text : string;
  tb_text : Obj;
  tb_annotations : Obj
}.

(** The arrow of a date range, [ → ] in the source (U+2192, UTF-8). *)
Definition arrow : string := " → ".

(** [<time datetime="c">c</time>] *)
Definition timeElement (c : string) : string :=
  "<time datetime=" +:+ dq +:+ c +:+ dq +:+ ">" +:+ c +:+ "</time>".

(** The [data] object of one reduction step, as handed to [stylize]. *)
Definition spanData (textBlock : TextBlock) : Obj :=
  let data := spread (tb_text textBlock) (tb_annotations textBlock) in
  match tb_type textBlock with
  | TypeText => data
  | TypeEquation expression =>
      <["equation" := VBool true]> (<["content" := VString expression]> data)
  | TypeMention MentionUser =>
      <["content" := VString (plain_text textBlock)]> data
  | TypeMention (MentionDate start end_) =>
      let content :=
        if truthy end_ then start +:+ arrow +:+ start else start in
      <["content" := VString (timeElement content)]> data
  | TypeMention MentionPage =>
      <["content" := VString (plain_text textBlock)]> data
  | TypeMention (MentionOther _) => data
  end.

(** The reducer of [blockToString]:
    [text.concat(this.stylize.process(data).content)]. *)
Definition appendSpan (text : string) (textBlock : TextBlock) : string :=
  text +:+ toString (get "content" (Pipe.process stylize (spanData textBlock))).

Definition blockToString (textBlocks : list TextBlock) : string :=
  fold_left appendSpan textBlocks EmptyString.

(* ===================================================================== *)
(** * Property normalizer: [getNotionPageProperties] *)
(* ===================================================================== *)

(** What a property stores under the key named by its type: a rich-text
    array or any other value. *)
Inductive PropValue : Type :=
| PSpans (spans : list TextBlock)
| PValue (v : Value).

(** [{ id, type, [type]: value }].  The type tag is one of the remote
    schema, so the key it names is neither [id] nor [type]; under the tag
    rich_text that key is the [rich_text] field the normalizer reads and
    writes. *)
Record Property : Type := mkProperty {
  prop_id : string;
  prop_type : string;
  prop_value : PropValue
}.

(** An entry of the normalized output: [{ id, key, value, type }]. *)
Record NormalizedProperty : Type := mkNormalized {
  np_id : string;
  np_key : string;
  np_value : PropValue;
  np_type : string
}.

(** Objects whose keys are enumerated ([page.properties], the accumulator
    of the reduction) are association lists, in the order [Object.keys]
    lists them. *)
Definition keys {A} (o : list (string * A)) : list string := map fst o.

Fixpoint lookupKey {A} (key : string) (o : list (string * A)) : option A :=
  match o with
  | [] => None
  | (k, a) :: rest => if String.eqb k key then Some a else lookupKey key rest
  end.

(** [o[key] = a]: an existing key keeps its place, a new one goes last. *)
Fixpoint setKey {A} (key : string) (a : A) (o : list (string * A))
  : list (string * A) :=
  match o with
  | [] => [(key, a)]
  | (k, b) :: rest =>
      if String.eqb k key then (k, a) :: rest else (k, b) :: setKey key a rest
  end.

Inductive Exception : Type :=
| ReferenceError (name : string)
| TypeError.

(** Outcome of code that may throw and that mutates [page.properties]:
    either way the properties as they are left behind. *)
Inductive Outcome (A : Type) : Type :=
| Return (a : A) (properties : list (string * Property))
| Throw (e : Exception) (properties : list (string * Property)).
Arguments Return {A} a properties.
Arguments Throw {A} e properties.

(** What the free identifier [blockToString] of [getNotionPageProperties]
    resolves to: the body names it without [this.], so it is looked up in
    the enclosing scopes and the global object, not on the instance. *)
Definition Scope : Type := option (PropValue -> Exception + Value).

(** The module binds [YAML], [fetch], [errorMessage], [pipeExtend] and
    [NotionAPIPlugin]; it has no binding for [blockToString]. *)
Definition moduleScope : Scope := None.

(** The method [this.blockToString], applied to a property value: anything
    but an array has no [reduce]. *)
Definition thisBlockToString (v : PropValue) : Exception + Value :=
  match v with
  | PSpans spans => inr (VString (blockToString spans))
  | PValue _ => inl TypeError
  end.

(** One step of the reduction over [Object.keys(page.properties)]. *)
Definition normalizeKey (scope : Scope)
    (acc : list (string * NormalizedProperty)) (key : string)
    (properties : list (string * Property))
  : Outcome (list (string * NormalizedProperty)) :=
  match lookupKey key properties with
  | None => Throw TypeError properties
  | Some p =>
      if String.eqb (prop_type p) "title" then Return acc properties
      else
        let store (p' : Property) properties' :=
          Return (setKey key (mkNormalized (prop_id p') key (prop_value p')
                                (prop_type p')) acc) properties' in
        if String.eqb (prop_type p) "rich_text" then
          match scope with
          | None => Throw (ReferenceError "blockToString") properties
          | Some blockToString =>
              match blockToString (prop_value p) with
              | inl e => Throw e properties
              | inr v =>
                  let p' := mkProperty (prop_id p) (prop_type p) (PValue v) in
                  store p' (setKey key p' properties)
              end
          end
        else store p properties
  end.

Fixpoint reduceKeys (scope : Scope) (ks : list string)
    (acc : list (string * NormalizedProperty))
    (properties : list (string * Property))
  : Outcome (list (string * NormalizedProperty)) :=
  match ks with
  | [] => Return acc properties
  | key :: rest =>
      match normalizeKey scope acc key properties with
      | Return acc' properties' => reduceKeys scope rest acc' properties'
      | Throw e properties' => Throw e properties'
      end
  end.

(** [getNotionPageProperties(page)], on [page.properties]. *)
Definition getNotionPageProperties (scope : Scope)
    (properties : list (string * Property))
  : Outcome (list (string * NormalizedProperty)) :=
  reduceKeys scope (keys properties) [] properties.

(* ===================================================================== *)
(** * Markdown emitter: [notionBlockToMarkdown] *)
(* ===================================================================== *)

(** A block of a materialized tree.  [block_text] and [checked] are the
    [text] and [checked] fields of the payload stored under the key named
    by [block_type]; [children] is the list attached by the fetcher. *)
Inductive Block : Type := mkBlock {
  block_id : string;
  block_type : string;
  has_children : bool;
  block_text : list TextBlock;
  checked : bool;
  children : list Block
}.

(** [get EOL_MD()] *)
Definition EOL_MD : string := String (ascii_of_nat 10) EmptyString.

(** [block.paragraph]: present on a block whose type is paragraph, absent
    on every other block and on a page. *)
Definition paragraphOf (block : Block) : option (list TextBlock) :=
  if String.eqb (block_type block) "paragraph" then Some (block_text block)
  else None.

(** [block.paragraph && block.paragraph.text && block.paragraph.text[0] &&
     block.paragraph.text[0].plain_text &&
     block.paragraph.text[0].plain_text.startsWith("```")],
    where [block] is the node whose children are being reduced. *)
Definition isCodeSnippetLine (paragraph : option (list TextBlock)) : bool :=
  match paragraph with
  | Some (first :: _) =>
      truthy (VString (plain_text first))
      && startsWith (plain_text first) "```"
  | _ => false
  end.

Definition isDigit (c : ascii) : bool :=
  let n := nat_of_ascii c in (48 <=? n)%nat && (n <=? 57)%nat.

(** [type.split("_")[1]]: what lies between the first underscore and the
    next one (or the end). *)
Fixpoint untilUnderscore (s : string) : string :=
  match s with
  | EmptyString => EmptyString
  | String c rest =>
      if Ascii.eqb c "_"%char then EmptyString
      else String c (untilUnderscore rest)
  end.

Fixpoint afterUnderscore (s : string) : string :=
  match s with
  | EmptyString => EmptyString
  | String c rest =>
      if Ascii.eqb c "_"%char then rest else afterUnderscore rest
  end.

(** [Number(s)] as a repeat count, for [s] a decimal numeral or empty; any
    other text is read as [NaN], for which [repeat] yields the empty
    string.  Signs, fractions, exponents, hexadecimal and surrounding
    blanks are not interpreted, and the range error of [repeat] on a
    negative or infinite count is not modelled: the heading tags of the
    remote schema are heading_1, heading_2 and heading_3, on which this is
    [Number]. *)
Fixpoint decimal (acc : nat) (s : string) : option nat :=
  match s with
  | EmptyString => Some acc
  | String c rest =>
      if isDigit c then decimal (10 * acc + (nat_of_ascii c - 48)) rest
      else None
  end.

Definition headingLevel (type : string) : nat :=
  default 0 (decimal 0 (untilUnderscore (afterUnderscore type))).

(** The body of the reducer once [childBlocksString] is known; [paragraph]
    is [block.paragraph] of the node being reduced. *)
Definition emitChild (paragraph : option (list TextBlock))
    (lowerTitleLevel : bool) (childBlocksString : string)
    (acc : string) (childBlock : Block) : string :=
  let type := block_type childBlock in
  if String.eqb type "paragraph" then
    let p := blockToString (block_text childBlock) in
    let isTableRow := startsWith p "|" && endsWith p "|" in
    acc +:+ p
      +:+ (if isTableRow || isCodeSnippetLine paragraph
           then EOL_MD else EOL_MD +:+ EOL_MD)
      +:+ childBlocksString
  else if startsWith type "heading_" then
    acc +:+ EOL_MD
      +:+ (if lowerTitleLevel then "#" else EmptyString)
      +:+ repeat "#" (headingLevel type)
      +:+ " "
      +:+ blockToString (block_text childBlock)
      +:+ EOL_MD
      +:+ childBlocksString
  else if String.eqb type "to_do" then
    acc +:+ ("- [" +:+ (if checked childBlock then "x" else " ") +:+ "] ")
      +:+ blockToString (block_text childBlock)
      +:+ EOL_MD
      +:+ childBlocksString
  else if String.eqb type "bulleted_list_item" then
    acc +:+ "* "
      +:+ blockToString (block_text childBlock)
      +:+ EOL_MD
      +:+ childBlocksString
  else if String.eqb type "numbered_list_item" then
    acc +:+ "1. "
      +:+ blockToString (block_text childBlock)
      +:+ EOL_MD
      +:+ childBlocksString
  else if String.eqb type "toggle" then
    acc +:+ "<details><summary>"
      +:+ blockToString (block_text childBlock)
      +:+ "</summary>"
      +:+ childBlocksString
      +:+ "</details>"
  else if String.eqb type "unsupported" then
    acc +:+ "<!-- This block is not supported by Notion API yet. -->"
      +:+ EOL_MD
      +:+ childBlocksString
  else acc.

(** The string computed before the dispatch; [nested] is the recursive
    call on [childBlock] at [depth + 2]. *)
Definition childBlocksStringOf (depth : nat) (nested : Block -> string)
    (childBlock : Block) : string :=
  if has_children childBlock then
    repeat "  " depth +:+ EmptyString +:+ nested childBlock +:+ EOL_MD
  else EmptyString.

(** One step of [block.children.reduce(..., "")]. *)
Definition visitChild (paragraph : option (list TextBlock))
    (lowerTitleLevel : bool) (depth : nat) (nested : Block -> string)
    (acc : string) (childBlock : Block) : string :=
  emitChild paragraph lowerTitleLevel
    (childBlocksStringOf depth nested childBlock) acc childBlock.

Fixpoint notionBlockToMarkdown (block : Block) (lowerTitleLevel : bool)
    (depth : nat) {struct block} : string :=
  fold_left
    (visitChild (paragraphOf block) lowerTitleLevel depth
       (fun childBlock =>
          notionBlockToMarkdown childBlock lowerTitleLevel (depth + 2)))
    (children block) EmptyString.

(* ===================================================================== *)
(** * Block tree fetcher: [getBlocks] and [getPages] *)
(* ===================================================================== *)

(** A record of the listing: its identifier, its property map and the
    block tree attached to it by [getPages]. *)
Record Page : Type := mkPage {
  page_id : string;
  properties : list (string * Property);
  page_children : list Block
}.

(** [notionBlockToMarkdown(page, lowerTitleLevel)]: a page has children and
    no [paragraph] field. *)
Definition pageToMarkdown (page : Page) (lowerTitleLevel : bool) : string :=
  fold_left
    (visitChild None lowerTitleLevel 0
       (fun childBlock => notionBlockToMarkdown childBlock lowerTitleLevel 2))
    (page_children page) EmptyString.

(** The parsed body of a listing response.  [results] is [None] when the
    body has no iterable [results] (an error object, say); [has_more] is
    the truthiness of the field. *)
Record ListResult (T : Type) : Type := mkResult {
  results : option (list T);
  next_cursor : Value;
  has_more : bool
}.
Arguments mkResult {T} results next_cursor has_more.
Arguments results {T} _.
Arguments next_cursor {T} _.
Arguments has_more {T} _.

(** [await fetch(...).then((res) => res.json())]: the promise rejects (the
    request failed or the body is not JSON) or resolves to the parsed
    body.  A body that parses to [null] makes the first statement after
    the [await] throw with the loop state untouched, which is [Rejected] as
    far as the loops can tell. *)
Inductive Response (T : Type) : Type :=
| Rejected
| Resolved (result : ListResult T).
Arguments Rejected {T}.
Arguments Resolved {T} result.

(** A request as the remote side sees it; the headers are the same on every
    request of a run and are left out.  [Post] carries the [start_cursor] of
    the JSON body when the body has one ([page_size] is always 100). *)
Inductive Request : Type :=
| Post (url : string) (start_cursor : option Value)
| Get (url : string).

(** The remote side: each answer may depend on the request and on all the
    requests received before it. *)
Record Server : Type := mkServer {
  queryDatabase : list Request -> Request -> Response Page;
  listChildren : list Request -> Request -> Response Block
}.

Definition setChildren (block : Block) (cs : list Block) : Block :=
  mkBlock (block_id block) (block_type block) (has_children block)
    (block_text block) (checked block) cs.

Definition childrenUrl (id : string) (startCursor : Value) : string :=
  let url := "https://api.notion.com/v1/blocks/" +:+ id +:+ "/children" in
  if truthy startCursor then url +:+ "?start_cursor=" +:+ toString startCursor
  else url.

(** [for (let childBlock of result.results)] of [getBlocks]: the children
    of each block that has some are fetched by [recur] and attached in
    place.  [None]: some nested call does not return. *)
Fixpoint attachChildren
    (recur : string -> list Request -> option (list Block * list Request))
    (blocks : list Block) (log : list Request)
  : option (list Block * list Request) :=
  match blocks with
  | [] => Some ([], log)
  | childBlock :: rest =>
      if has_children childBlock then
        match recur (block_id childBlock) log with
        | None => None
        | Some (cs, log1) =>
            match attachChildren recur rest log1 with
            | None => None
            | Some (rest', log2) => Some (setChildren childBlock cs :: rest', log2)
            end
        end
      else
        match attachChildren recur rest log with
        | None => None
        | Some (rest', log2) => Some (childBlock :: rest', log2)
        end
  end.

(** The [while (hasMore)] loop of [getBlocks] from a given loop state;
    [log] is the list of requests issued so far.  Each iteration and each
    nested call takes one unit of [fuel]; [None] means the loop has not
    returned within it. *)
Fixpoint getBlocksLoop (server : Server) (fuel : nat) (id : string)
    (hasMore : bool) (blockContent : list Block) (startCursor : Value)
    (log : list Request) {struct fuel}
  : option (list Block * list Request) :=
  if hasMore then
    match fuel with
    | O => None
    | S fuel' =>
        let request := Get (childrenUrl id startCursor) in
        let log1 := log ++ [request] in
        match listChildren server log request with
        | Rejected =>
            (* catch: console.log(errorMessage) *)
            getBlocksLoop server fuel' id hasMore blockContent startCursor log1
        | Resolved result =>
            match results result with
            | None =>
                (* for...of over a non-iterable throws; catch *)
                getBlocksLoop server fuel' id hasMore blockContent startCursor
                  log1
            | Some blocks =>
                match
                  attachChildren
                    (fun childId l =>
                       getBlocksLoop server fuel' childId true []
                         (VString EmptyString) l)
                    blocks log1
                with
                | None => None
                | Some (blocks', log2) =>
                    getBlocksLoop server fuel' id (has_more result)
                      (blockContent ++ blocks') (next_cursor result) log2
                end
            end
        end
    end
  else Some (blockContent, log).

(** [getBlocks({ id, notionVersion, token })] *)
Definition getBlocks (server : Server) (fuel : nat) (id : string)
    (log : list Request) : option (list Block * list Request) :=
  getBlocksLoop server fuel id true [] (VString EmptyString) log.

Definition queryUrl (databaseId : string) : string :=
  "https://api.notion.com/v1/databases/" +:+ databaseId +:+ "/query".

(** [for (let page of result.results)] of [getPages]:
    [page.children = await this.getBlocks(...)], then [pages.push(page)]. *)
Fixpoint fetchChildren
    (recur : string -> list Request -> option (list Block * list Request))
    (pages : list Page) (log : list Request)
  : option (list Page * list Request) :=
  match pages with
  | [] => Some ([], log)
  | page :: rest =>
      match recur (page_id page) log with
      | None => None
      | Some (cs, log1) =>
          match fetchChildren recur rest log1 with
          | None => None
          | Some (rest', log2) =>
              Some (mkPage (page_id page) (properties page) cs :: rest', log2)
          end
      end
  end.

(** [if (startCursor) { body.start_cursor = startCursor }]: the
    [start_cursor] field of the request body after the statement, [body]
    being the field before it ([None]: the body has no such field). *)
Definition nextBody (startCursor : Value) (body : option Value)
  : option Value :=
  if truthy startCursor then Some startCursor else body.

(** The [while (hasMore)] loop of [getPages].  [body] is the
    [start_cursor] field of the request body, an object that lives across
    iterations. *)
Fixpoint getPagesLoop (server : Server) (fuel : nat) (databaseId : string)
    (hasMore : bool) (startCursor : Value) (body : option Value)
    (pages : list Page) (log : list Request) {struct fuel}
  : option (list Page * list Request) :=
  if hasMore then
    match fuel with
    | O => None
    | S fuel' =>
        let body1 := nextBody startCursor body in
        let request := Post (queryUrl databaseId) body1 in
        let log1 := log ++ [request] in
        match queryDatabase server log request with
        | Rejected =>
            getPagesLoop server fuel' databaseId hasMore startCursor body1
              pages log1
        | Resolved result =>
            (* startCursor and hasMore are assigned before the for loop *)
            match results result with
            | None =>
                getPagesLoop server fuel' databaseId (has_more result)
                  (next_cursor result) body1 pages log1
            | Some found =>
                match fetchChildren (getBlocks server fuel') found log1 with
                | None => None
                | Some (found', log2) =>
                    getPagesLoop server fuel' databaseId (has_more result)
                      (next_cursor result) body1 (pages ++ found') log2
                end
            end
        end
    end
  else Some (pages, log).

(** [getPages({ token, databaseId, notionVersion })] *)
Definition getPages (server : Server) (fuel : nat) (databaseId : string)
  : option (list Page * list Request) :=
  getPagesLoop server fuel databaseId true (VString EmptyString) None [] [].

(* ===================================================================== *)
(** * Page title: [getNotionPageTitle] *)
(* ===================================================================== *)

(** [Array.prototype.find] over the keys of an object. *)
Fixpoint findKey (test : string -> bool) (ks : list string) : option string :=
  match ks with
  | [] => None
  | key :: rest => if test key then Some key else findKey test rest
  end.

(** [(key) => page.properties[key].type == "title"] *)
Definition isTitleKey (properties : list (string * Property)) (key : string)
  : bool :=
  match lookupKey key properties with
  | Some p => String.eqb (prop_type p) "title"
  | None => false
  end.

(** [getNotionPageTitle(page)], on [page.properties].  When no key is
    found, [page.properties[undefined]] is either [undefined] or a property
    without a [title] field, and the call throws a type error either way;
    so does [reduce] on a value that is not an array. *)
Definition getNotionPageTitle (properties : list (string * Property))
  : Exception + string :=
  match findKey (isTitleKey properties) (keys properties) with
  | None => inl TypeError
  | Some titleProperty =>
      match lookupKey titleProperty properties with
      | None => inl TypeError
      | Some p =>
          match prop_value p with
          | PSpans spans => inr (blockToString spans)
          | PValue _ => inl TypeError
          end
      end
  end.

(* ===================================================================== *)
(** * Document assembly: the [loadSource] callback *)
(* ===================================================================== *)

(** The options the callback reads (the truthiness of the two flags). *)
Record Options : Type := mkOptions {
  notionNodeType : string;
  propsToFrontmatter : bool;
  lowerTitleLevel : bool
}.

(** [static defaultOptions()], for the three options above. *)
Definition defaultOptions : Options := mkOptions "NotionRecords" true true.

(** [properties[key].value.remoteImage || properties[key].value]: reading
    a field of [undefined] or [null] throws; arrays, strings and booleans
    have no such field. *)
Definition frontmatterValue (value : PropValue) : Exception + PropValue :=
  match value with
  | PSpans _ => inr value
  | PValue VUndefined => inl TypeError
  | PValue VNull => inl TypeError
  | PValue (VObject fields) =>
      let remoteImage := get "remoteImage" fields in
      if truthy remoteImage then inr (PValue remoteImage) else inr value
  | PValue _ => inr value
  end.

(** The keys of an object are enumerated with the array indices first, in
    ascending numeric order, then the other strings in the order they were
    added.  An array index is a canonical decimal numeral (no sign, no
    leading zero) below 2^32 - 1. *)
Fixpoint digitsValue (acc : N) (s : string) : option N :=
  match s with
  | EmptyString => Some acc
  | String c rest =>
      if isDigit c
      then digitsValue (10 * acc + N.of_nat (nat_of_ascii c - 48))%N rest
      else None
  end.

Definition arrayIndex (key : string) : option N :=
  match key with
  | EmptyString => None
  | String c rest =>
      if Ascii.eqb c "0"%char && negb (String.eqb rest EmptyString) then None
      else
        match digitsValue 0%N key with
        | Some n => if (n <? 4294967295)%N then Some n else None
        | None => None
        end
  end.

(** Where a new array index goes: before the first key that is a larger
    index or no index at all. *)
Fixpoint insertIndexed {A} (n : N) (key : string) (a : A)
    (o : list (string * A)) : list (string * A) :=
  match o with
  | [] => [(key, a)]
  | (k, b) :: rest =>
      match arrayIndex k with
      | Some m =>
          if (m <? n)%N then (k, b) :: insertIndexed n key a rest
          else (key, a) :: o
      | None => (key, a) :: o
      end
  end.

(** [{ ...o, [key]: a }] on an object listed in enumeration order: an
    existing key keeps its place, a new array index goes among the
    indices, any other new key goes last. *)
Definition assignKey {A} (key : string) (a : A) (o : list (string * A))
  : list (string * A) :=
  match lookupKey key o, arrayIndex key with
  | None, Some n => insertIndexed n key a o
  | _, _ => setKey key a o
  end.

(** [Object.keys(properties).reduce((acc, key) => ({ ...acc, [key]: ... }),
    { title })] *)
Fixpoint frontmatterKeys (ks : list string)
    (properties : list (string * NormalizedProperty))
    (acc : list (string * PropValue))
  : Exception + list (string * PropValue) :=
  match ks with
  | [] => inr acc
  | key :: rest =>
      match lookupKey key properties with
      | None => inl TypeError
      | Some np =>
          match frontmatterValue (np_value np) with
          | inl e => inl e
          | inr v => frontmatterKeys rest properties (assignKey key v acc)
          end
      end
  end.

Definition frontmatterOf (title : string)
    (properties : list (string * NormalizedProperty))
  : Exception + list (string * PropValue) :=
  frontmatterKeys (keys properties) properties
    [("title", PValue (VString title))].

(** The node handed to [addNode].  The fields copied from the page as they
    are ([archived], [createdAt], [updatedAt], [raw], [json]) are not part
    of the model. *)
Record Node : Type := mkNode {
  node_id : string;
  node_title : string;
  node_properties : list (string * NormalizedProperty);
  markdownString : string
}.

(** The body of [pages.forEach((page) => ...)] up to the node it builds.
    [stringify] is [YAML.stringify], a dependency of the plugin. *)
Definition pageNode (stringify : list (string * PropValue) -> string)
    (scope : Scope) (options : Options) (page : Page) : Exception + Node :=
  match getNotionPageTitle (properties page) with
  | inl e => inl e
  | inr title =>
      match getNotionPageProperties scope (properties page) with
      | Throw e _ => inl e
      | Return normalizedProperties _ =>
          let markdown := pageToMarkdown page (lowerTitleLevel options) in
          let node markdown' :=
            mkNode (notionNodeType options +:+ "-" +:+ page_id page) title
              normalizedProperties markdown' in
          if propsToFrontmatter options then
            match frontmatterOf title normalizedProperties with
            | inl e => inl e
            | inr frontmatter =>
                inr (node ("---" +:+ EOL_MD +:+ stringify frontmatter
                             +:+ EOL_MD +:+ "---" +:+ EOL_MD +:+ EOL_MD
                             +:+ markdown))
            end
          else inr (node markdown)
      end
  end.

(** [pages.forEach(...)]: the nodes added so far, and the exception that
    ended the iteration if one was thrown. *)
Fixpoint addPages (stringify : list (string * PropValue) -> string)
    (scope : Scope) (options : Options) (pages : list Page)
    (nodes : list Node) : list Node * option Exception :=
  match pages with
  | [] => (nodes, None)
  | page :: rest =>
      match pageNode stringify scope options page with
      | inl e => (nodes, Some e)
      | inr node => addPages stringify scope options rest (nodes ++ [node])
      end
  end.

(** The [loadSource] callback: fetch, then add.  [None]: [getPages] has
    not returned within [fuel]. *)
Definition loadSource (stringify : list (string * PropValue) -> string)
    (scope : Scope) (server : Server) (fuel : nat) (options : Options)
    (databaseId : string) : option (list Node * option Exception) :=
  match getPages server fuel databaseId with
  | None => None
  | Some (pages, _) => Some (addPages stringify scope options pages [])
  end.

(* ===================================================================== *)
(** * Definitions used to state the properties *)
(* ===================================================================== *)

(** The stages of [stylize] and their triggering conditions, in pipeline
    order. *)
Definition stages : list (Obj -> Obj) :=
  [ annotateBold; annotateItalic; annotateCode; annotateStrikethrough;
    annotateUnderline; annotateColor; annotateLink; annotateEquation ].

Definition triggers : list (Obj -> Value) :=
  [ pick "bold"; pick "italic"; pick "code"; pick "strikethrough";
    pick "underline"; colorIsSet; pick "link"; pick "equation" ].

(** The object handed to stage number [n] (counted from 0) when the
    pipeline is run on [data]. *)
Definition passedTo (n : nat) (data : Obj) : Obj :=
  fold_left (fun arg f => Pipe.extend f arg) (firstn n stages) data.

(** A stage that returns its argument or an object with the single key
    [content]. *)
Definition contentStage (f : Obj -> Obj) : Prop :=
  forall data, f data = data \/ exists c, f data = contentOnly c.

(** The annotation order in the words of the specification: one wrapper per
    active flag, applied to the content in the order bold, italic, code,
    strikethrough, underline, color, link, equation, each flag read from
    the span context the pipeline was given. *)
Definition wrapIf (active : bool) (l r : string) (content : Value) : Value :=
  if active then VString (l +:+ toString content +:+ r) else content.

Definition colorOpen (data : Obj) : string :=
  "<span notion-color=" +:+ dq +:+ toString (get "color" data) +:+ dq +:+ ">".

Definition linkClose (data : Obj) : string :=
  "](" +:+ toString (linkTarget (get "link" data)) +:+ ")".

Definition styled (data : Obj) (content : Value) : Value :=
  let x := wrapIf (truthy (get "bold" data)) "**" "**" content in
  let x := wrapIf (truthy (get "italic" data)) "_" "_" x in
  let x := wrapIf (truthy (get "code" data)) "`" "`" x in
  let x := wrapIf (truthy (get "strikethrough" data)) "~~" "~~" x in
  let x := wrapIf (truthy (get "underline" data)) "<u>" "</u>" x in
  let x := wrapIf (looseNotEqual (get "color" data) "default")
             (colorOpen data) "</span>" x in
  wrapIf (truthy (get "link" data)) "[" (linkClose data) x.

Definition orderedWrappers (data : Obj) : Value :=
  wrapIf (truthy (get "equation" data)) "$" "$"
    (styled data (get "content" data)).

(** No style flag of the span context is active: the five boolean flags
    are falsy, the color is the string default, there is no link. *)
Definition unstyled (data : Obj) : Prop :=
  truthy (get "bold" data) = false /\
  truthy (get "italic" data) = false /\
  truthy (get "code" data) = false /\
  truthy (get "strikethrough" data) = false /\
  truthy (get "underline" data) = false /\
  get "color" data = VString "default" /\
  truthy (get "link" data) = false.

(** Span contexts on which the properties are exercised. *)
(** A span context with every flag set and one key of its own. *)
Definition busyContext : Obj :=
  <["content" := VString "x"]>
    (<["bold" := VBool true]>
       (<["italic" := VBool true]>
          (<["color" := VString "red"]>
             (<["link" := VObject {[ "url" := VString "u" ]}]>
                (<["href" := VString "h"]> ∅))))).

Definition boldLinkContext : Obj :=
  <["content" := VString "x"]>
    (<["bold" := VBool true]>
       (<["italic" := VBool false]>
          (<["code" := VBool false]>
             (<["strikethrough" := VBool false]>
                (<["underline" := VBool false]>
                   (<["color" := VString "default"]>
                      (<["link" := VObject {[ "url" := VString "u" ]}]>
                         ∅))))))).


(** The annotations object of a span with no style: the six keys the remote
    side sends, all inactive. *)
Definition noAnnotations : Obj :=
  <["bold" := VBool false]>
    (<["italic" := VBool false]>
       (<["strikethrough" := VBool false]>
          (<["underline" := VBool false]>
             (<["code" := VBool false]>
                (<["color" := VString "default"]> ∅))))).

(** The merge [{...textBlock.text, ...textBlock.annotations}] a reduction
    step of [blockToString] starts from. *)
Definition mergedFields (textBlock : TextBlock) : Obj :=
  spread (tb_text textBlock) (tb_annotations textBlock).

(** An equation span set in bold. *)
Definition boldEquation : TextBlock :=
  mkTextBlock (TypeEquation "E") "E" ∅ (<["bold" := VBool true]> noAnnotations).

Definition plainEquation : TextBlock :=
  mkTextBlock (TypeEquation "E") "E" ∅ noAnnotations.

(** Date mentions without and with an end date. *)
Definition dateMention (end_ : Value) : TextBlock :=
  mkTextBlock (TypeMention (MentionDate "2021-01-01" end_)) "2021-01-01" ∅
    noAnnotations.

(** The property map seen from outside after a normal return: a property
    that is not a title and is typed rich text holds what [blockToString]
    returned for it; every other property is as it was. *)
Definition isTitle (p : Property) : bool := String.eqb (prop_type p) "title".

Definition isRichText (p : Property) : bool :=
  String.eqb (prop_type p) "rich_text".

Definition inPlace (scope : Scope) (p : Property) : Property :=
  if isTitle p then p
  else if isRichText p then
    match scope with
    | Some blockToString =>
        match blockToString (prop_value p) with
        | inr v => mkProperty (prop_id p) (prop_type p) (PValue v)
        | inl _ => p
        end
    | None => p
    end
  else p.

Definition leftBehind (scope : Scope) (properties : list (string * Property))
  : list (string * Property) :=
  map (fun '(k, p) => (k, inPlace scope p)) properties.

(** The call [blockToString(...)] made for a rich-text property resolves
    and returns. *)
Definition rendersUnder (scope : Scope) (p : Property) : Prop :=
  isRichText p = true ->
  exists blockToString v,
    scope = Some blockToString /\ blockToString (prop_value p) = inr v.

Definition nonTitle (properties : list (string * Property))
  : list (string * Property) :=
  List.filter (fun '(_, p) => negb (isTitle p)) properties.

(** The normalized output for a property map, entry by entry. *)
Definition normalized (scope : Scope) (properties : list (string * Property))
  : list (string * NormalizedProperty) :=
  map (fun '(k, p) =>
         (k, mkNormalized (prop_id p) k (prop_value (inPlace scope p))
               (prop_type p)))
      (nonTitle properties).

(** Property maps on which the normalizer is exercised. *)
Definition helloSpan : TextBlock :=
  mkTextBlock TypeText "hi" (<["content" := VString "hi"]> ∅) noAnnotations.

Definition titleProperty : Property :=
  mkProperty "title" "title" (PSpans [helloSpan]).

Definition summaryProperty : Property :=
  mkProperty "a1" "rich_text" (PSpans [helloSpan]).

Definition doneProperty : Property :=
  mkProperty "b2" "checkbox" (PValue (VBool true)).

Definition richProperties : list (string * Property) :=
  [("Name", titleProperty); ("Summary", summaryProperty);
   ("Done", doneProperty)].

Definition plainProperties : list (string * Property) :=
  [("Name", titleProperty); ("Done", doneProperty)].

(** The type tags the emitter has a case for. *)
Definition recognized (type : string) : bool :=
  String.eqb type "paragraph" || startsWith type "heading_"
  || String.eqb type "to_do" || String.eqb type "bulleted_list_item"
  || String.eqb type "numbered_list_item" || String.eqb type "toggle"
  || String.eqb type "unsupported".

(** [p.startsWith("|") && p.endsWith("|")] *)
Definition isTableRow (p : string) : bool :=
  startsWith p "|" && endsWith p "|".

(** Blocks and pages on which the emitter is exercised. *)
Definition plainSpan (s : string) : TextBlock :=
  mkTextBlock TypeText s (<["content" := VString s]> ∅) noAnnotations.

Definition leaf (id type : string) (spans : list TextBlock) : Block :=
  mkBlock id type false spans false [].

(** A paragraph opening a code fence, directly under a page. *)
Definition fenceParagraph : Block := leaf "b1" "paragraph" [plainSpan "```js"].

Definition fencePage : Page := mkPage "p1" [] [fenceParagraph].

(** A paragraph with children whose first span opens a code fence; its
    child is an ordinary line. *)
Definition fenceParent : Block :=
  mkBlock "b0" "paragraph" true [plainSpan "```js"] false
    [leaf "b2" "paragraph" [plainSpan "let x"]].

(** A block of a type the emitter has no case for, with a child. *)
Definition dividerWithChild : Block :=
  mkBlock "b3" "divider" true [] false
    [leaf "b4" "paragraph" [plainSpan "hidden"]].

(** ** Remote sides used to exercise the fetcher *)

Definition requestUrl (request : Request) : string :=
  match request with
  | Post url _ => url
  | Get url => url
  end.

Definition asked (url : string) (log : list Request) : bool :=
  existsb (fun request => String.eqb (requestUrl request) url) log.

Definition emptyDatabase : list Request -> Request -> Response Page :=
  fun _ _ => Resolved (mkResult (Some []) VNull false).

Definition x1 : Block := leaf "x1" "paragraph" [].
Definition x2 : Block := leaf "x2" "paragraph" [].
Definition x3 : Block := leaf "x3" "paragraph" [].

Definition page1 : ListResult Block :=
  mkResult (Some [x1]) (VString "c1") true.
Definition page2 : ListResult Block :=
  mkResult (Some [x2]) (VString "c2") true.
Definition page3 : ListResult Block := mkResult (Some [x3]) VNull false.

Definition url1 : string := childrenUrl "b" (VString EmptyString).
Definition url2 : string := childrenUrl "b" (VString "c1").
Definition url3 : string := childrenUrl "b" (VString "c2").

(** Three pages for the children of block b; the request for the second
    page is rejected the first time it is made and answered afterwards. *)
Definition flakyServer : Server :=
  mkServer emptyDatabase
    (fun log request =>
       let url := requestUrl request in
       if String.eqb url url1 then Resolved page1
       else if String.eqb url url2 then
         if asked url2 log then Resolved page2 else Rejected
       else if String.eqb url url3 then Resolved page3
       else Rejected).

(** The same listing, the request for the second page being rejected every
    time. *)
Definition downServer : Server :=
  mkServer emptyDatabase
    (fun log request =>
       let url := requestUrl request in
       if String.eqb url url1 then Resolved page1
       else if String.eqb url url3 then Resolved page3
       else Rejected).

(** The same listing with every page served. *)
Definition steadyServer : Server :=
  mkServer emptyDatabase
    (fun log request =>
       let url := requestUrl request in
       if String.eqb url url1 then Resolved page1
       else if String.eqb url url2 then Resolved page2
       else if String.eqb url url3 then Resolved page3
       else Rejected).

(** ** A listing that reports more for [N] pages and then stops *)

Fixpoint moreThenStop {T} (N : nat) (pages : list (ListResult T)) : Prop :=
  match N, pages with
  | O, [last] => has_more last = false
  | S n, result :: rest => has_more result = true /\ moreThenStop n rest
  | _, _ => False
  end.

(** The items of the pages, in the order the pages are received. *)
Definition itemsOf {T} (pages : list (ListResult T)) : list T :=
  List.concat (map (fun result => default [] (results result)) pages).

(** The requests [getBlocks] issues for a listing served page by page. *)
Fixpoint blockRequests (id : string) (startCursor : Value)
    (pages : list (ListResult Block)) : list Request :=
  match pages with
  | [] => []
  | result :: rest =>
      Get (childrenUrl id startCursor)
        :: blockRequests id (next_cursor result) rest
  end.

(** The remote side answers the successive requests of [getBlocks] for
    [id] with [pages], whose items have no children. *)
Fixpoint servesLeaves (server : Server) (id : string) (startCursor : Value)
    (log : list Request) (pages : list (ListResult Block)) : Prop :=
  match pages with
  | [] => True
  | result :: rest =>
      let request := Get (childrenUrl id startCursor) in
      listChildren server log request = Resolved result /\
      (exists blocks,
         results result = Some blocks /\
         Forall (fun b => has_children b = false) blocks) /\
      servesLeaves server id (next_cursor result) (log ++ [request]) rest
  end.

(** The requests addressed to the children listing of [id]. *)
Definition listingUrl (id : string) : string :=
  "https://api.notion.com/v1/blocks/" +:+ id +:+ "/children".

Definition addresses (id : string) (request : Request) : bool :=
  match request with
  | Get url => startsWith url (listingUrl id)
  | Post _ _ => false
  end.

Definition countTo (id : string) (log : list Request) : nat :=
  length (List.filter (addresses id) log).

(** The same with items that may have children: the nested fetches of each
    page return (within [fuel0]) the blocks [blocks'] with their children
    attached, and go to other listings; [out] collects the blocks and
    [log'] is the log at the end. *)
Fixpoint servesBlocks (server : Server) (fuel0 : nat) (id : string)
    (startCursor : Value) (log : list Request)
    (pages : list (ListResult Block)) (out : list Block)
    (log' : list Request) : Prop :=
  match pages with
  | [] => out = [] /\ log' = log
  | result :: rest =>
      let request := Get (childrenUrl id startCursor) in
      listChildren server log request = Resolved result /\
      exists blocks blocks' log2 out',
        results result = Some blocks /\
        attachChildren (getBlocks server fuel0) blocks (log ++ [request])
        = Some (blocks', log2) /\
        countTo id log2 = countTo id (log ++ [request]) /\
        servesBlocks server fuel0 id (next_cursor result) log2 rest out' log'
        /\ out = blocks' ++ out'
  end.

(** The remote side answers the successive queries of [getPages] with
    [pages]; the block tree of each record is fetched within [fuel0]. *)
Fixpoint servesPages (server : Server) (fuel0 : nat) (databaseId : string)
    (startCursor : Value) (body : option Value) (log : list Request)
    (pages : list (ListResult Page)) (out : list Page)
    (log' : list Request) : Prop :=
  match pages with
  | [] => out = [] /\ log' = log
  | result :: rest =>
      let request := Post (queryUrl databaseId) (nextBody startCursor body) in
      queryDatabase server log request = Resolved result /\
      exists found found' log2 out',
        results result = Some found /\
        fetchChildren (getBlocks server fuel0) found (log ++ [request])
        = Some (found', log2) /\
        servesPages server fuel0 databaseId (next_cursor result)
          (nextBody startCursor body) log2 rest out' log'
        /\ out = found' ++ out'
  end.

(** A fetched item is the received item with a children list attached. *)
Definition attached (b b' : Block) : Prop :=
  exists cs, b' = setChildren b cs.

Definition sameRecord (p p' : Page) : Prop :=
  page_id p' = page_id p /\ properties p' = properties p.

Definition isPost (request : Request) : bool :=
  match request with
  | Post _ _ => true
  | Get _ => false
  end.

(** The number of queries to the record listing among the requests. *)
Definition countPosts (log : list Request) : nat :=
  length (List.filter isPost log).

(** A database of two pages of records; the first record has one block,
    which has children of its own. *)
Definition recordA : Page := mkPage "A" [("Name", titleProperty)] [].
Definition recordB : Page := mkPage "B" [("Name", titleProperty)] [].

Definition toggleBlock : Block := mkBlock "t1" "toggle" true [] false [].

Definition twoPageServer : Server :=
  mkServer
    (fun log request =>
       match request with
       | Post _ None => Resolved (mkResult (Some [recordA]) (VString "n1") true)
       | Post _ (Some _) => Resolved (mkResult (Some [recordB]) VNull false)
       | Get _ => Rejected
       end)
    (fun log request =>
       let url := requestUrl request in
       if String.eqb url (childrenUrl "A" (VString EmptyString)) then
         Resolved (mkResult (Some [toggleBlock]) VNull false)
       else if String.eqb url (childrenUrl "t1" (VString EmptyString)) then
         Resolved (mkResult (Some [x1]) VNull false)
       else Resolved (mkResult (Some []) VNull false)).

Definition recordPages : list (ListResult Page) :=
  [ mkResult (Some [recordA]) (VString "n1") true;
    mkResult (Some [recordB]) VNull false ].

(** What [getPages] returns against [twoPageServer], and the requests it
    has issued by then. *)
Definition recordsFetched : list Page :=
  [ mkPage "A" [("Name", titleProperty)] [setChildren toggleBlock [x1]];
    mkPage "B" [("Name", titleProperty)] [] ].

Definition requestsIssued : list Request :=
  [ Post (queryUrl "db") None;
    Get (childrenUrl "A" (VString EmptyString));
    Get (childrenUrl "t1" (VString EmptyString));
    Post (queryUrl "db") (Some (VString "n1"));
    Get (childrenUrl "B" (VString EmptyString)) ].

(* ===================================================================== *)
(** * Definitions used to state further properties *)
(* ===================================================================== *)

(** A span context is inert when no stage of [stylize] fires on it. *)
Definition inert (data : Obj) : Prop :=
  unstyled data /\ truthy (get "equation" data) = false.

(** A span context on which the link stage alone fires. *)
Definition onlyLinked (data : Obj) : Prop :=
  truthy (get "bold" data) = false /\
  truthy (get "italic" data) = false /\
  truthy (get "code" data) = false /\
  truthy (get "strikethrough" data) = false /\
  truthy (get "underline" data) = false /\
  get "color" data = VString "default" /\
  truthy (get "link" data) = true /\
  truthy (get "equation" data) = false.

(** A span context without a [color] key and with no other stage firing. *)
Definition colorless (data : Obj) : Prop :=
  truthy (get "bold" data) = false /\
  truthy (get "italic" data) = false /\
  truthy (get "code" data) = false /\
  truthy (get "strikethrough" data) = false /\
  truthy (get "underline" data) = false /\
  data !! "color" = None /\
  truthy (get "link" data) = false /\
  truthy (get "equation" data) = false.

(** Spans and contexts on which these properties are exercised. *)
Definition userMention : TextBlock :=
  mkTextBlock (TypeMention MentionUser) "@Ada" ∅ noAnnotations.

Definition databaseMention : TextBlock :=
  mkTextBlock (TypeMention (MentionOther "database")) "Tasks" ∅ noAnnotations.

Definition bareContext : Obj := <["content" := VString "x"]> ∅.

Definition linkedContext (link : Value) : Obj :=
  <["content" := VString "x"]> (<["link" := link]> noAnnotations).

(** The type tag of a heading of a one-digit level. *)
Definition headingType (level : nat) : string :=
  "heading_" +:+ String (ascii_of_nat (48 + level)) EmptyString.

(** Blocks on which the emitter is exercised. *)
Definition numberedItem (id text : string) : Block :=
  leaf id "numbered_list_item" [plainSpan text].

Definition tableRowParagraph : Block :=
  leaf "r1" "paragraph" [plainSpan "| a | b |"].

Definition bulletItem : Block :=
  leaf "s1" "bulleted_list_item" [plainSpan "item"].

Definition strayChildren : Block :=
  setChildren bulletItem [leaf "s2" "paragraph" [plainSpan "not rendered"]].

(** The value a defined property value contributes to the front matter. *)
Definition frontValue (value : PropValue) : PropValue :=
  match value with
  | PValue (VObject fields) =>
      if truthy (get "remoteImage" fields)
      then PValue (get "remoteImage" fields) else value
  | _ => value
  end.

Definition isNullish (value : PropValue) : bool :=
  match value with
  | PValue VUndefined | PValue VNull => true
  | _ => false
  end.

Definition notTitleKey {A} (entry : string * A) : bool :=
  negb (String.eqb (fst entry) "title").

Definition isIndexed {A} (entry : string * A) : bool :=
  match arrayIndex (fst entry) with
  | Some _ => true
  | None => false
  end.

(** [k1] may stand before [k2] in the enumeration of an object: an index
    before a larger index or before a key that is no index, a key that is
    no index only before another such key. *)
Definition precedes (k1 k2 : string) : bool :=
  match arrayIndex k1, arrayIndex k2 with
  | Some a, Some b => (a <? b)%N
  | Some _, None => true
  | None, Some _ => false
  | None, None => true
  end.

(** An association list that lists an object as [Object.keys] does. *)
Definition enumerated {A} (o : list (string * A)) : Prop :=
  StronglySorted (fun e1 e2 => precedes (fst e1) (fst e2) = true) o.

Definition frontEntry (entry : string * NormalizedProperty)
  : string * PropValue :=
  (fst entry, frontValue (np_value (snd entry))).

(** The front matter of a title and normalized properties whose values
    are all defined, as its keys are enumerated: the properties keyed by
    an array index, then the title entry, holding the title unless a
    property is itself keyed title, then the other properties in order. *)
Definition frontmatterShape (title : string)
    (properties : list (string * NormalizedProperty))
  : list (string * PropValue) :=
  map frontEntry (List.filter isIndexed properties)
    ++ ("title",
        match lookupKey "title" properties with
        | Some np => frontValue (np_value np)
        | None => PValue (VString title)
        end)
    :: map frontEntry
         (List.filter (fun entry => negb (isIndexed entry) && notTitleKey entry)
            properties).

(** Normalized properties and pages on which assembly is exercised. *)
Definition coverProperty : NormalizedProperty :=
  mkNormalized "c1" "Cover"
    (PValue (VObject (<["remoteImage" := VString "https://img/1.png"]> ∅)))
    "files".

Definition dueProperty : NormalizedProperty :=
  mkNormalized "d1" "Due" (PValue VNull) "date".

Definition yearProperty : NormalizedProperty :=
  mkNormalized "y1" "2021" (PValue (VString "done")) "select".

Definition shadowProperty : NormalizedProperty :=
  mkNormalized "t9" "title" (PValue (VString "shadow")) "select".

Definition noStringify : list (string * PropValue) -> string :=
  fun _ => EmptyString.

Definition plainPage (id : string) : Page := mkPage id plainProperties [].

Definition richPage : Page := mkPage "R" richProperties [].

(** A remote side that answers every request with an empty page and
    reports that there is more. *)
Definition endlessServer : Server :=
  mkServer (fun _ _ => Resolved (mkResult (Some []) VNull true))
           (fun _ _ => Resolved (mkResult (Some []) VNull true)).

(** The answers of a listing never let a loop stop: each is a rejection,
    a body without results (block listing only) or a page reporting
    more. *)
Definition neverStopsBlocks (server : Server) : Prop :=
  forall log request,
    match listChildren server log request with
    | Rejected => True
    | Resolved result => results result = None \/ has_more result = true
    end.

Definition neverStopsPages (server : Server) : Prop :=
  forall log request,
    match queryDatabase server log request with
    | Rejected => True
    | Resolved result => has_more result = true
    end.

(** Requests that are all reads of block children. *)
Definition onlyGets (added : list Request) : Prop :=
  Forall (fun request => isPost request = false) added.

(** Some key of the map leads to a rich-text-typed property. *)
Definition hasRichText (properties : list (string * Property)) : Prop :=
  exists key p, lookupKey key properties = Some p /\ isRichText p = true.

(** An entry of the normalized output is filed under its own key field and
    is not title-typed. *)
Definition wellFiled (entry : string * NormalizedProperty) : Prop :=
  np_key (snd entry) = fst entry /\
  String.eqb (np_type (snd entry)) "title" = false.

(* ===================================================================== *)
(** * Properties of the annotation pipeline *)
(* ===================================================================== *)

Section Stylize.

Implicit Types (data : Obj) (key : string) (f : Obj -> Obj).

Lemma get_insert_eq key (v : Value) data : get key (<[key := v]> data) = v.
Proof. unfold get. by rewrite lookup_insert_eq. Qed.

Lemma get_insert_ne key key' (v : Value) data :
  key' <> key -> get key (<[key' := v]> data) = get key data.
Proof. intros H. unfold get. by rewrite lookup_insert_ne. Qed.

Lemma In_firstn {A} (x : A) n (l : list A) : In x (firstn n l) -> In x l.
Proof.
  revert l. induction n as [|n IH]; intros [|y l]; simpl; try tauto.
  intros [->|H]; [by left | right; by apply IH].
Qed.

Lemma stylize_runs_stages data :
  Pipe.process stylize data = passedTo (length stages) data.
Proof. reflexivity. Qed.

Lemma ifTrue_wrap_contentStage (predicate : Obj -> Value)
    (l r : Obj -> string) :
  contentStage (ifTrue predicate (fun d => wrap (l d) (r d) d) returnOrigin).
Proof.
  intros data. unfold ifTrue, returnOrigin, wrap.
  destruct (truthy (predicate data)); [right; eauto | by left].
Qed.

Lemma stages_contentStage f : In f stages -> contentStage f.
Proof.
  unfold stages. simpl.
  intros [<-|[<-|[<-|[<-|[<-|[<-|[<-|[<-|[]]]]]]]]];
    first [ apply (ifTrue_wrap_contentStage _ (fun _ => _) (fun _ => _))
          | apply (ifTrue_wrap_contentStage _ _ (fun _ => _))
          | apply (ifTrue_wrap_contentStage _ (fun _ => _) _) ].
Qed.

Lemma extend_lookup_other f data key :
  contentStage f -> key <> "content" ->
  Pipe.extend f data !! key = data !! key.
Proof.
  intros Hf Hkey. unfold Pipe.extend, spread.
  destruct (Hf data) as [-> | [c ->]].
  - by rewrite (idemp (∪) data).
  - apply lookup_union_r. unfold contentOnly.
    by apply lookup_singleton_ne.
Qed.

Lemma passedTo_lookup_other n data key :
  key <> "content" -> passedTo n data !! key = data !! key.
Proof.
  intros Hkey. unfold passedTo.
  assert (Hall : Forall contentStage (firstn n stages)).
  { apply List.Forall_forall. intros f Hin.
    apply stages_contentStage. revert Hin. apply In_firstn. }
  revert data. induction Hall as [|f fs Hf _ IH]; intros data; [done|].
  simpl. rewrite IH. by apply extend_lookup_other.
Qed.

Lemma get_passedTo_other n data key :
  key <> "content" -> get key (passedTo n data) = get key data.
Proof. intros H. unfold get. by rewrite passedTo_lookup_other. Qed.

(** What a stage built with [ifTrue], a wrapping transformer and
    [returnOrigin] leaves in [content]. *)
Lemma get_content_extend (predicate : Obj -> Value) (l r : Obj -> string)
    data :
  get "content"
    (Pipe.extend
       (ifTrue predicate (fun d => wrap (l d) (r d) d) returnOrigin) data)
  = wrapIf (truthy (predicate data)) (l data) (r data) (get "content" data).
Proof.
  unfold Pipe.extend, spread, ifTrue, returnOrigin, wrap, wrapIf, get.
  destruct (truthy (predicate data)).
  - unfold contentOnly. rewrite lookup_union_l'; [|by eexists].
    by rewrite lookup_singleton_eq.
  - by rewrite (idemp (∪) data).
Qed.

Lemma content_after_bold data :
  get "content" (Pipe.extend annotateBold data)
  = wrapIf (truthy (get "bold" data)) "**" "**" (get "content" data).
Proof. exact (get_content_extend _ (fun _ => _) (fun _ => _) data). Qed.

Lemma content_after_italic data :
  get "content" (Pipe.extend annotateItalic data)
  = wrapIf (truthy (get "italic" data)) "_" "_" (get "content" data).
Proof. exact (get_content_extend _ (fun _ => _) (fun _ => _) data). Qed.

Lemma content_after_code data :
  get "content" (Pipe.extend annotateCode data)
  = wrapIf (truthy (get "code" data)) "`" "`" (get "content" data).
Proof. exact (get_content_extend _ (fun _ => _) (fun _ => _) data). Qed.

Lemma content_after_strikethrough data :
  get "content" (Pipe.extend annotateStrikethrough data)
  = wrapIf (truthy (get "strikethrough" data)) "~~" "~~"
      (get "content" data).
Proof. exact (get_content_extend _ (fun _ => _) (fun _ => _) data). Qed.

Lemma content_after_underline data :
  get "content" (Pipe.extend annotateUnderline data)
  = wrapIf (truthy (get "underline" data)) "<u>" "</u>"
      (get "content" data).
Proof. exact (get_content_extend _ (fun _ => _) (fun _ => _) data). Qed.

Lemma content_after_color data :
  get "content" (Pipe.extend annotateColor data)
  = wrapIf (looseNotEqual (get "color" data) "default")
      (colorOpen data) "</span>" (get "content" data).
Proof. exact (get_content_extend colorIsSet colorOpen (fun _ => _) data). Qed.

Lemma content_after_link data :
  get "content" (Pipe.extend annotateLink data)
  = wrapIf (truthy (get "link" data)) "[" (linkClose data)
      (get "content" data).
Proof. exact (get_content_extend _ (fun _ => _) linkClose data). Qed.

Lemma content_after_equation data :
  get "content" (Pipe.extend annotateEquation data)
  = wrapIf (truthy (get "equation" data)) "$" "$" (get "content" data).
Proof. exact (get_content_extend _ (fun _ => _) (fun _ => _) data). Qed.

(** The pipeline computes the ordered composition of the wrappers, every
    flag being the one of the context it was given. *)
Lemma stylize_content data :
  get "content" (Pipe.process stylize data) = orderedWrappers data.
Proof.
  unfold orderedWrappers, styled.
  change (Pipe.process stylize data)
    with (Pipe.extend annotateEquation (passedTo 7 data)).
  rewrite content_after_equation.
  change (passedTo 7 data) with (Pipe.extend annotateLink (passedTo 6 data)).
  rewrite content_after_link.
  change (passedTo 6 data) with (Pipe.extend annotateColor (passedTo 5 data)).
  rewrite content_after_color.
  change (passedTo 5 data)
    with (Pipe.extend annotateUnderline (passedTo 4 data)).
  rewrite content_after_underline.
  change (passedTo 4 data)
    with (Pipe.extend annotateStrikethrough (passedTo 3 data)).
  rewrite content_after_strikethrough.
  change (passedTo 3 data) with (Pipe.extend annotateCode (passedTo 2 data)).
  rewrite content_after_code.
  change (passedTo 2 data)
    with (Pipe.extend annotateItalic (passedTo 1 data)).
  rewrite content_after_italic.
  change (passedTo 1 data) with (Pipe.extend annotateBold data).
  rewrite content_after_bold.
  change (Pipe.extend annotateBold data) with (passedTo 1 data).
  change (Pipe.extend annotateItalic (passedTo 1 data))
    with (passedTo 2 data).
  change (Pipe.extend annotateCode (passedTo 2 data)) with (passedTo 3 data).
  change (Pipe.extend annotateStrikethrough (passedTo 3 data))
    with (passedTo 4 data).
  change (Pipe.extend annotateUnderline (passedTo 4 data))
    with (passedTo 5 data).
  change (Pipe.extend annotateColor (passedTo 5 data)) with (passedTo 6 data).
  change (Pipe.extend annotateLink (passedTo 6 data)) with (passedTo 7 data).
  unfold colorOpen, linkClose.
  rewrite !get_passedTo_other by done.
  reflexivity.
Qed.

Lemma styled_unstyled data (content : Value) :
  unstyled data -> styled data content = content.
Proof.
  intros (Hb & Hi & Hc & Hs & Hu & Hcol & Hl). unfold styled.
  rewrite Hb, Hi, Hc, Hs, Hu, Hcol, Hl. reflexivity.
Qed.

End Stylize.

(** C9. Every stage of the annotation pipeline replaces at most the
    [content] field of the span context: for every context [data] and every
    key other than [content], (1) each stage, run through [pipeExtend],
    yields an object with that key present and unchanged; (2) the object
    handed to stage number [n] of the pipeline agrees with [data] on that
    key; hence (3) the triggering condition of every stage evaluates on the
    object it is handed exactly as on [data], whatever stages fired
    before. *)
Theorem stage_replaces_content_only (data : Obj) :
  (forall f key, In f stages -> key <> "content" ->
     Pipe.extend f data !! key = data !! key) /\
  (forall n key, key <> "content" -> passedTo n data !! key = data !! key) /\
  (forall n trigger, In trigger triggers ->
     trigger (passedTo n data) = trigger data) /\
  Pipe.process stylize data = passedTo (length stages) data.
Proof.
  split; [|split; [|split]].
  - intros f key Hf Hkey. apply extend_lookup_other; [|done].
    by apply stages_contentStage.
  - intros n key Hkey. by apply passedTo_lookup_other.
  - intros n trigger Hin. unfold triggers in Hin. simpl in Hin.
    destruct Hin as [<-|[<-|[<-|[<-|[<-|[<-|[<-|[<-|[]]]]]]]]];
      unfold pick, colorIsSet; by rewrite get_passedTo_other.
  - apply stylize_runs_stages.
Qed.

Lemma stage_replaces_content_only_witness :
  Pipe.extend annotateBold busyContext !! "href" = busyContext !! "href" /\
  passedTo 6 busyContext !! "link" = busyContext !! "link" /\
  colorIsSet (passedTo 5 busyContext) = colorIsSet busyContext.
Proof.
  destruct (stage_replaces_content_only busyContext) as (H1 & H2 & H3 & _).
  split; [|split].
  - apply H1; [simpl; auto | discriminate].
  - apply H2. discriminate.
  - apply H3. simpl. auto 10.
Defined.

(** C2. The annotation pipeline applies its wrappers in the fixed order
    bold, italic, code, strikethrough, underline, color, link, equation:
    for every span context the resulting content is the ordered composition
    [orderedWrappers].  In particular a context with content x, bold set,
    link [{url: u}] and every other flag inactive yields exactly
    [[**x**](u)], and not [**[x](u)**]. *)
Theorem stylize_fixed_order :
  (forall data : Obj,
     get "content" (Pipe.process stylize data) = orderedWrappers data) /\
  (forall data : Obj,
     get "content" data = VString "x" ->
     get "bold" data = VBool true ->
     get "link" data = VObject {[ "url" := VString "u" ]} ->
     truthy (get "italic" data) = false ->
     truthy (get "code" data) = false ->
     truthy (get "strikethrough" data) = false ->
     truthy (get "underline" data) = false ->
     get "color" data = VString "default" ->
     truthy (get "equation" data) = false ->
     get "content" (Pipe.process stylize data) = VString "[**x**](u)" /\
     get "content" (Pipe.process stylize data) <> VString "**[x](u)**").
Proof.
  split; [apply stylize_content|].
  intros data Hc Hb Hl Hi Hco Hs Hu Hcol He.
  rewrite stylize_content. unfold orderedWrappers, styled, linkClose.
  rewrite Hc, Hb, Hl, Hi, Hco, Hs, Hu, Hcol, He.
  split; [reflexivity | discriminate].
Qed.

Lemma stylize_fixed_order_witness :
  get "content" (Pipe.process stylize boldLinkContext) = VString "[**x**](u)" /\
  get "content" (Pipe.process stylize boldLinkContext) <> VString "**[x](u)**".
Proof.
  apply (proj2 stylize_fixed_order boldLinkContext); reflexivity.
Defined.

(* ===================================================================== *)
(** * Properties of the inline text renderer *)
(* ===================================================================== *)

Section Renderer.

Implicit Types (data : Obj) (textBlock : TextBlock).

Lemma styled_insert_content data (v content : Value) :
  styled (<["content" := v]> data) content = styled data content.
Proof.
  unfold styled, colorOpen, linkClose.
  by rewrite !get_insert_ne by discriminate.
Qed.

Lemma styled_insert_equation data (v content : Value) :
  styled (<["equation" := v]> data) content = styled data content.
Proof.
  unfold styled, colorOpen, linkClose.
  by rewrite !get_insert_ne by discriminate.
Qed.

Lemma blockToString_single textBlock :
  blockToString [textBlock]
  = toString (orderedWrappers (spanData textBlock)).
Proof.
  unfold blockToString. simpl. unfold appendSpan.
  by rewrite stylize_content.
Qed.

(** The rendering of an equation span: the styled expression between
    dollar signs. *)
Lemma equation_span_styled textBlock expression :
  tb_type textBlock = TypeEquation expression ->
  blockToString [textBlock]
  = "$" +:+ toString (styled (mergedFields textBlock) (VString expression))
        +:+ "$".
Proof.
  intros H. rewrite blockToString_single. unfold spanData. rewrite H.
  fold (mergedFields textBlock). unfold orderedWrappers.
  rewrite get_insert_eq, styled_insert_equation, styled_insert_content.
  rewrite get_insert_ne by discriminate. by rewrite get_insert_eq.
Qed.

(** The rendering of a date mention whose merged fields carry no style and
    no equation mark. *)
Lemma date_mention_plain textBlock start end_ :
  tb_type textBlock = TypeMention (MentionDate start end_) ->
  unstyled (mergedFields textBlock) ->
  truthy (get "equation" (mergedFields textBlock)) = false ->
  blockToString [textBlock]
  = timeElement (if truthy end_ then start +:+ arrow +:+ start else start).
Proof.
  intros H Hplain Heq. rewrite blockToString_single. unfold spanData.
  rewrite H. fold (mergedFields textBlock). unfold orderedWrappers.
  rewrite styled_insert_content, get_insert_eq.
  rewrite get_insert_ne by discriminate. rewrite Heq.
  by rewrite styled_unstyled.
Qed.

End Renderer.

(** C6 (as stated, refuted). An equation span set in bold renders with the
    bold markers inside the dollar signs, not as the bare [$E$]. *)
Lemma equation_span_bold_counterexample :
  tb_type boldEquation = TypeEquation "E" /\
  blockToString [boldEquation] = "$**E**$" /\
  blockToString [boldEquation] <> "$E$".
Proof.
  split; [reflexivity|].
  rewrite (equation_span_styled boldEquation "E" eq_refl).
  split; [reflexivity | discriminate].
Qed.

(** C6 (amended). An equation span renders as a dollar sign, the equation
    expression wrapped by the wrappers of the active style flags (in
    pipeline order), and a dollar sign; when no style flag is active on the
    span this is exactly [$expr$]. *)
Theorem equation_span_rendering (textBlock : TextBlock) (expression : string) :
  tb_type textBlock = TypeEquation expression ->
  blockToString [textBlock]
  = "$" +:+ toString (styled (mergedFields textBlock) (VString expression))
        +:+ "$"
  /\ (unstyled (mergedFields textBlock) ->
      blockToString [textBlock] = "$" +:+ expression +:+ "$").
Proof.
  intros H. split; [by apply equation_span_styled|].
  intros Hplain. rewrite (equation_span_styled _ _ H).
  by rewrite styled_unstyled.
Qed.

Lemma equation_span_rendering_witness :
  blockToString [plainEquation] = "$E$".
Proof.
  apply (proj2 (equation_span_rendering plainEquation "E" eq_refl)).
  repeat split; reflexivity.
Defined.

(** C7. A date mention with no style flag active renders as a [time]
    element whose [datetime] attribute and text are the same string: the
    start date alone when the mention has no end date, and the arrow form
    with the start date on both sides of the arrow when it has one.  For
    the start date 2021-01-01 and no end date this is exactly
    [<time datetime="2021-01-01">2021-01-01</time>]. *)
Theorem date_mention_rendering (textBlock : TextBlock) (start : string)
    (end_ : Value) :
  tb_type textBlock = TypeMention (MentionDate start end_) ->
  unstyled (mergedFields textBlock) ->
  truthy (get "equation" (mergedFields textBlock)) = false ->
  (truthy end_ = false ->
   blockToString [textBlock]
   = "<time datetime=" +:+ dq +:+ start +:+ dq +:+ ">" +:+ start
       +:+ "</time>") /\
  (truthy end_ = true ->
   blockToString [textBlock]
   = "<time datetime=" +:+ dq +:+ (start +:+ " → " +:+ start) +:+ dq +:+ ">"
       +:+ (start +:+ " → " +:+ start) +:+ "</time>") /\
  (start = "2021-01-01" -> truthy end_ = false ->
   blockToString [textBlock]
   = "<time datetime=" +:+ dq +:+ "2021-01-01" +:+ dq
       +:+ ">2021-01-01</time>").
Proof.
  intros H Hplain Heq.
  rewrite (date_mention_plain _ _ _ H Hplain Heq).
  split; [|split].
  - intros ->. reflexivity.
  - intros ->. unfold timeElement, arrow. reflexivity.
  - intros -> ->. reflexivity.
Qed.

Lemma date_mention_rendering_witness :
  blockToString [dateMention VNull]
  = "<time datetime=" +:+ dq +:+ "2021-01-01" +:+ dq +:+ ">2021-01-01</time>"
  /\ blockToString [dateMention (VString "2021-01-02")]
     = "<time datetime=" +:+ dq +:+ "2021-01-01 → 2021-01-01" +:+ dq
         +:+ ">2021-01-01 → 2021-01-01</time>".
Proof.
  split.
  - apply (date_mention_rendering (dateMention VNull) "2021-01-01" VNull);
      try reflexivity. repeat split; reflexivity.
  - apply (date_mention_rendering (dateMention (VString "2021-01-02"))
             "2021-01-01" (VString "2021-01-02"));
      try reflexivity. repeat split; reflexivity.
Defined.

(* ===================================================================== *)
(** * Properties of the property normalizer *)
(* ===================================================================== *)

Section Normalizer.

Context {A : Type}.
Implicit Types (o : list (string * A)) (key : string).

Lemma lookupKey_app_notin key o1 o2 :
  ~ In key (keys o1) -> lookupKey key (o1 ++ o2) = lookupKey key o2.
Proof.
  induction o1 as [|[k a] o1 IH]; simpl; [done|]. intros Hnot.
  destruct (String.eqb_spec k key) as [->|_]; [tauto|].
  apply IH. tauto.
Qed.

Lemma lookupKey_head key (a : A) o : lookupKey key ((key, a) :: o) = Some a.
Proof. simpl. by rewrite String.eqb_refl. Qed.

Lemma lookupKey_Some_In key (a : A) o :
  lookupKey key o = Some a -> In key (keys o).
Proof.
  induction o as [|[k b] o IH]; simpl; [done|].
  destruct (String.eqb_spec k key) as [->|_]; [by left | right; by apply IH].
Qed.

Lemma lookupKey_In_Some key o :
  In key (keys o) -> exists a, lookupKey key o = Some a.
Proof.
  induction o as [|[k b] o IH]; simpl; [done|]. intros [->|Hin].
  - rewrite String.eqb_refl. by eexists.
  - destruct (String.eqb k key); [by eexists | by apply IH].
Qed.

Lemma setKey_app_notin key (a : A) o1 o2 :
  ~ In key (keys o1) -> setKey key a (o1 ++ o2) = o1 ++ setKey key a o2.
Proof.
  induction o1 as [|[k b] o1 IH]; simpl; [done|]. intros Hnot.
  destruct (String.eqb_spec k key) as [->|_]; [tauto|].
  f_equal. apply IH. tauto.
Qed.

Lemma setKey_head key (a b : A) o :
  setKey key a ((key, b) :: o) = (key, a) :: o.
Proof. simpl. by rewrite String.eqb_refl. Qed.

Lemma setKey_notin key (a : A) o :
  ~ In key (keys o) -> setKey key a o = o ++ [(key, a)].
Proof.
  intros H. rewrite <- (app_nil_r o) at 1.
  by rewrite setKey_app_notin.
Qed.

End Normalizer.

Section NormalizerRun.

Variable scope : Scope.
Implicit Types (properties : list (string * Property)) (p : Property).

Lemma keys_leftBehind properties :
  keys (leftBehind scope properties) = keys properties.
Proof.
  unfold keys, leftBehind. rewrite map_map. apply map_ext. by intros [k p].
Qed.

Lemma keys_normalized properties :
  keys (normalized scope properties) = keys (nonTitle properties).
Proof.
  unfold keys, normalized. rewrite map_map. apply map_ext. by intros [k p].
Qed.

Lemma keys_nonTitle_incl properties key :
  In key (keys (nonTitle properties)) -> In key (keys properties).
Proof.
  unfold keys, nonTitle. rewrite !in_map_iff.
  intros (x & <- & Hin). apply filter_In in Hin. exists x. tauto.
Qed.

Lemma inPlace_not_rich p : isRichText p = false -> inPlace scope p = p.
Proof.
  unfold inPlace. intros ->. by destruct (isTitle p).
Qed.

(** One step on the entry at the head of what remains to be visited. *)
Lemma normalizeKey_step acc key p before after :
  ~ In key (keys before) ->
  ~ In key (keys acc) ->
  rendersUnder scope p ->
  normalizeKey scope acc key (before ++ (key, p) :: after)
  = Return (acc ++ normalized scope [(key, p)])
           (before ++ (key, inPlace scope p) :: after).
Proof.
  intros Hbefore Hacc Hrenders. unfold normalizeKey.
  rewrite lookupKey_app_notin, lookupKey_head by done.
  unfold normalized, nonTitle, inPlace, rendersUnder, isTitle, isRichText in *.
  simpl.
  destruct (String.eqb (prop_type p) "title") eqn:Htitle; simpl.
  { by rewrite List.app_nil_r. }
  destruct (String.eqb (prop_type p) "rich_text") eqn:Hrich; simpl.
  - destruct (Hrenders eq_refl) as (f & v & -> & Hv). rewrite Hv. simpl.
    rewrite setKey_app_notin, setKey_head by done.
    rewrite setKey_notin by done. by rewrite ?Htitle, ?Hrich, ?Hv.
  - rewrite setKey_notin by done. by rewrite ?Htitle, ?Hrich.
Qed.

Lemma reduceKeys_run before todo acc :
  List.NoDup (keys (before ++ todo)) ->
  (forall key, In key (keys acc) -> In key (keys before)) ->
  Forall (fun entry => rendersUnder scope (snd entry)) todo ->
  reduceKeys scope (keys todo) acc (before ++ todo)
  = Return (acc ++ normalized scope todo)
           (before ++ leftBehind scope todo).
Proof.
  revert before acc.
  induction todo as [|[key p] todo IH]; intros before acc Hnodup Hacc Hall.
  { simpl. unfold normalized. simpl. by rewrite !app_nil_r. }
  assert (Hfresh : ~ In key (keys before) /\ ~ In key (keys todo)).
  { unfold keys in *. rewrite map_app in Hnodup. simpl in Hnodup.
    apply List.NoDup_remove_2 in Hnodup. rewrite in_app_iff in Hnodup.
    tauto. }
  destruct Hfresh as [Hbefore Htodo].
  inversion Hall as [|? ? Hp Hrest]; subst. simpl in Hp.
  simpl. rewrite normalizeKey_step; [|done|naive_solver|done].
  replace (before ++ (key, inPlace scope p) :: todo)
    with ((before ++ [(key, inPlace scope p)]) ++ todo)
    by (by rewrite <- app_assoc).
  rewrite IH.
  - rewrite <- !app_assoc. f_equal.
    unfold normalized, nonTitle. simpl.
    destruct (negb (isTitle p)); reflexivity.
  - unfold keys in *. rewrite !map_app in *. simpl in *.
    by rewrite <- app_assoc.
  - intros k. unfold keys. rewrite !map_app, !in_app_iff.
    intros [Hk | Hk]; [left; by apply Hacc|].
    fold (keys (normalized scope [(key, p)])) in Hk.
    rewrite keys_normalized in Hk. apply keys_nonTitle_incl in Hk.
    simpl in Hk. right. exact Hk.
  - done.
Qed.

Lemma getNotionPageProperties_run properties :
  List.NoDup (keys properties) ->
  Forall (fun entry => rendersUnder scope (snd entry)) properties ->
  getNotionPageProperties scope properties
  = Return (normalized scope properties) (leftBehind scope properties).
Proof.
  intros Hnodup Hall. unfold getNotionPageProperties.
  exact (reduceKeys_run [] properties [] Hnodup (fun _ H => H) Hall).
Qed.

End NormalizerRun.

Lemma reduceKeys_moduleScope_raises properties ks acc :
  (forall key, In key ks -> In key (keys properties)) ->
  (exists key p, In key ks /\ lookupKey key properties = Some p /\
                 isRichText p = true) ->
  reduceKeys moduleScope ks acc properties
  = Throw (ReferenceError "blockToString") properties.
Proof.
  revert acc. induction ks as [|k ks IH]; intros acc Hin (key & p & Hkey & Hp & Hrich).
  { destruct Hkey. }
  simpl. unfold normalizeKey.
  destruct (lookupKey_In_Some k properties) as [q Hq]; [apply Hin; by left|].
  rewrite Hq.
  assert (Hrest : isRichText q = false ->
                  exists key p, In key ks /\ lookupKey key properties = Some p
                                /\ isRichText p = true).
  { intros Hq'. exists key, p. split; [|done].
    destruct Hkey as [->|]; [|done]. congruence. }
  assert (Htail : forall key, In key ks -> In key (keys properties)).
  { intros k' Hk'. apply Hin. by right. }
  unfold isRichText in Hrest.
  destruct (String.eqb (prop_type q) "title") eqn:Htitle.
  - apply IH; [done|]. apply Hrest.
    apply String.eqb_eq in Htitle. by rewrite Htitle.
  - destruct (String.eqb (prop_type q) "rich_text") eqn:Hq'; simpl; [done|].
    apply IH; [done|]. by apply Hrest.
Qed.

(** C3 (the code departs from the claim). The normalizer names the renderer
    without [this.]; the name resolves nowhere in the module, so on every
    property map with a rich-text-typed entry the call raises a reference
    error instead of storing the rendered string, and the map is left as it
    was. *)
Theorem rich_text_entry_raises (properties : list (string * Property))
    (key : string) (p : Property) :
  lookupKey key properties = Some p ->
  isRichText p = true ->
  getNotionPageProperties moduleScope properties
  = Throw (ReferenceError "blockToString") properties.
Proof.
  intros Hp Hrich. unfold getNotionPageProperties.
  apply reduceKeys_moduleScope_raises; [done|].
  exists key, p. split; [|done]. by apply lookupKey_Some_In in Hp.
Qed.

Lemma rich_text_entry_raises_witness :
  getNotionPageProperties moduleScope richProperties
  = Throw (ReferenceError "blockToString") richProperties.
Proof.
  apply (rich_text_entry_raises richProperties "Summary" summaryProperty);
    reflexivity.
Defined.

(** Were the name bound to the method, the entry would hold the rendered
    string, as the specification has it. *)
Lemma rich_text_entry_rendered_when_bound properties key p spans :
  List.NoDup (keys properties) ->
  Forall (fun entry => rendersUnder (Some thisBlockToString) (snd entry))
    properties ->
  In (key, p) properties ->
  isTitle p = false -> isRichText p = true -> prop_value p = PSpans spans ->
  exists out properties',
    getNotionPageProperties (Some thisBlockToString) properties
    = Return out properties' /\
    In (key, mkNormalized (prop_id p) key
               (PValue (VString (blockToString spans))) (prop_type p)) out.
Proof.
  intros Hnodup Hall Hin Htitle Hrich Hspans.
  rewrite getNotionPageProperties_run by done.
  eexists _, _. split; [reflexivity|].
  unfold normalized. apply in_map_iff. exists (key, p). split.
  - unfold inPlace. rewrite Htitle, Hrich. simpl. by rewrite Hspans.
  - unfold nonTitle. apply filter_In. split; [done|]. by rewrite Htitle.
Qed.

Lemma richProperties_wf :
  List.NoDup (keys richProperties) /\
  Forall (fun entry => rendersUnder (Some thisBlockToString) (snd entry))
    richProperties.
Proof.
  split.
  - unfold richProperties, keys. simpl.
    repeat constructor; simpl; intuition discriminate.
  - unfold richProperties.
    apply List.Forall_cons; [intros H; vm_compute in H; discriminate H|].
    apply List.Forall_cons.
    { intros _. exists thisBlockToString. eexists. split; reflexivity. }
    apply List.Forall_cons; [intros H; vm_compute in H; discriminate H|].
    apply List.Forall_nil.
Defined.

(** C8 (the code departs from the claim). The rendering call of the
    normalizer names a function the module does not bind (the slip of C3),
    so on a property map with a rich-text entry the normalizer raises
    before it stores or assigns anything: there is no output whose keys
    could be the keys of the input minus the title.  On every map with
    distinct keys and no rich-text entry the normalizer returns, leaves the
    map as it was, and the keys of its output are the keys of the input
    minus the title-typed ones, in order. *)
Theorem normalizer_frame_as_shipped :
  getNotionPageProperties moduleScope richProperties
  = Throw (ReferenceError "blockToString") richProperties /\
  (forall properties : list (string * Property),
     List.NoDup (keys properties) ->
     Forall (fun entry => isRichText (snd entry) = false) properties ->
     getNotionPageProperties moduleScope properties
     = Return (normalized moduleScope properties) properties
     /\ keys (normalized moduleScope properties)
        = keys (nonTitle properties)).
Proof.
  split.
  { apply (reduceKeys_moduleScope_raises richProperties); [done|].
    exists "Summary", summaryProperty. simpl. auto. }
  intros properties Hnodup Hplain.
  split; [|apply keys_normalized].
  rewrite getNotionPageProperties_run; [|done|].
  - f_equal. unfold leftBehind.
    rewrite <- (map_id properties) at 2. apply map_ext_in.
    intros [k p] Hin. rewrite List.Forall_forall in Hplain.
    specialize (Hplain _ Hin). simpl in Hplain.
    by rewrite inPlace_not_rich.
  - eapply List.Forall_impl; [|exact Hplain].
    intros [k p] Hp Hrich. simpl in *. congruence.
Qed.

Lemma normalizer_frame_as_shipped_witness :
  getNotionPageProperties moduleScope plainProperties
  = Return (normalized moduleScope plainProperties) plainProperties
  /\ keys (normalized moduleScope plainProperties) = ["Done"].
Proof.
  destruct (proj2 normalizer_frame_as_shipped plainProperties) as [Hrun Hkeys].
  - unfold plainProperties, keys. simpl.
    repeat constructor; simpl; intuition discriminate.
  - repeat constructor.
  - split; [exact Hrun|]. rewrite Hkeys. reflexivity.
Defined.

(* ===================================================================== *)
(** * Properties of the markdown emitter *)
(* ===================================================================== *)

Lemma notionBlockToMarkdown_unfold block lowerTitleLevel depth :
  notionBlockToMarkdown block lowerTitleLevel depth
  = fold_left
      (visitChild (paragraphOf block) lowerTitleLevel depth
         (fun childBlock =>
            notionBlockToMarkdown childBlock lowerTitleLevel (depth + 2)))
      (children block) EmptyString.
Proof. by destruct block. Qed.

Lemma visitChild_unrecognized paragraph lowerTitleLevel depth nested acc
    childBlock :
  recognized (block_type childBlock) = false ->
  visitChild paragraph lowerTitleLevel depth nested acc childBlock = acc.
Proof.
  unfold recognized, visitChild, emitChild. intros H.
  repeat (apply orb_false_elim in H; destruct H as [H ?]).
  by repeat match goal with E : _ = false |- _ => rewrite E; clear E end.
Qed.

(** C10. A block whose type tag is none of the recognized kinds leaves the
    accumulator of the reduction as it was, whatever its children and the
    string computed for them: visiting it returns the accumulator, and a
    tree renders the same with or without such a block (and its subtree)
    among the children of a node. *)
Theorem unrecognized_block_contributes_nothing (childBlock : Block) :
  recognized (block_type childBlock) = false ->
  (forall paragraph lowerTitleLevel depth nested acc,
     visitChild paragraph lowerTitleLevel depth nested acc childBlock = acc) /\
  (forall block before after lowerTitleLevel depth,
     notionBlockToMarkdown
       (setChildren block (before ++ childBlock :: after))
       lowerTitleLevel depth
     = notionBlockToMarkdown (setChildren block (before ++ after))
         lowerTitleLevel depth).
Proof.
  intros H. split.
  - intros. by apply visitChild_unrecognized.
  - intros block before after lowerTitleLevel depth.
    rewrite !notionBlockToMarkdown_unfold. simpl.
    rewrite !fold_left_app. simpl.
    by rewrite visitChild_unrecognized.
Qed.

Lemma unrecognized_block_contributes_nothing_witness :
  has_children dividerWithChild = true /\
  visitChild None true 0 (fun b => notionBlockToMarkdown b true 2) "# T"
    dividerWithChild = "# T".
Proof.
  split; [reflexivity|].
  apply (proj1 (unrecognized_block_contributes_nothing dividerWithChild
                  eq_refl)).
Defined.

Lemma visitChild_paragraph paragraph lowerTitleLevel depth nested acc
    childBlock :
  block_type childBlock = "paragraph" ->
  visitChild paragraph lowerTitleLevel depth nested acc childBlock
  = acc +:+ blockToString (block_text childBlock)
        +:+ (if isTableRow (blockToString (block_text childBlock))
                || isCodeSnippetLine paragraph
             then EOL_MD else EOL_MD +:+ EOL_MD)
        +:+ childBlocksStringOf depth nested childBlock.
Proof. unfold visitChild, emitChild. by intros ->. Qed.

(* ===================================================================== *)
(** * Properties of the block tree fetcher *)
(* ===================================================================== *)

Section Fetcher.

Variable server : Server.

Lemma getBlocksLoop_done fuel id blockContent startCursor log :
  getBlocksLoop server fuel id false blockContent startCursor log
  = Some (blockContent, log).
Proof. by destruct fuel. Qed.

Lemma getPagesLoop_done fuel databaseId startCursor body pages log :
  getPagesLoop server fuel databaseId false startCursor body pages log
  = Some (pages, log).
Proof. by destruct fuel. Qed.

(** One iteration of each loop. *)
Lemma getBlocksLoop_S fuel id blockContent startCursor log :
  getBlocksLoop server (S fuel) id true blockContent startCursor log
  = let request := Get (childrenUrl id startCursor) in
    match listChildren server log request with
    | Rejected =>
        getBlocksLoop server fuel id true blockContent startCursor
          (log ++ [request])
    | Resolved result =>
        match results result with
        | None =>
            getBlocksLoop server fuel id true blockContent startCursor
              (log ++ [request])
        | Some blocks =>
            match attachChildren (getBlocks server fuel) blocks
                    (log ++ [request]) with
            | None => None
            | Some (blocks', log2) =>
                getBlocksLoop server fuel id (has_more result)
                  (blockContent ++ blocks') (next_cursor result) log2
            end
        end
    end.
Proof. reflexivity. Qed.

Lemma getPagesLoop_S fuel databaseId startCursor body pages log :
  getPagesLoop server (S fuel) databaseId true startCursor body pages log
  = let body1 := nextBody startCursor body in
    let request := Post (queryUrl databaseId) body1 in
    match queryDatabase server log request with
    | Rejected =>
        getPagesLoop server fuel databaseId true startCursor body1 pages
          (log ++ [request])
    | Resolved result =>
        match results result with
        | None =>
            getPagesLoop server fuel databaseId (has_more result)
              (next_cursor result) body1 pages (log ++ [request])
        | Some found =>
            match fetchChildren (getBlocks server fuel) found
                    (log ++ [request]) with
            | None => None
            | Some (found', log2) =>
                getPagesLoop server fuel databaseId (has_more result)
                  (next_cursor result) body1 (pages ++ found') log2
            end
        end
    end.
Proof. reflexivity. Qed.

(** A rejected request of [getBlocks]: the catch clause runs and the loop
    goes round with the state it had. *)
Lemma getBlocksLoop_rejected fuel id blockContent startCursor log :
  listChildren server log (Get (childrenUrl id startCursor)) = Rejected ->
  getBlocksLoop server (S fuel) id true blockContent startCursor log
  = getBlocksLoop server fuel id true blockContent startCursor
      (log ++ [Get (childrenUrl id startCursor)]).
Proof. intros H. simpl. by rewrite H. Qed.

Lemma getBlocksLoop_no_results fuel id blockContent startCursor log result :
  listChildren server log (Get (childrenUrl id startCursor))
  = Resolved result ->
  results result = None ->
  getBlocksLoop server (S fuel) id true blockContent startCursor log
  = getBlocksLoop server fuel id true blockContent startCursor
      (log ++ [Get (childrenUrl id startCursor)]).
Proof. intros H Hnone. simpl. by rewrite H, Hnone. Qed.

Lemma getPagesLoop_rejected fuel databaseId startCursor body pages log :
  queryDatabase server log
    (Post (queryUrl databaseId) (nextBody startCursor body)) = Rejected ->
  getPagesLoop server (S fuel) databaseId true startCursor body pages log
  = getPagesLoop server fuel databaseId true startCursor
      (nextBody startCursor body) pages
      (log ++ [Post (queryUrl databaseId) (nextBody startCursor body)]).
Proof. intros H. rewrite getPagesLoop_S. cbv zeta. by rewrite H. Qed.

Lemma getPagesLoop_no_results fuel databaseId startCursor body pages log
    result :
  queryDatabase server log
    (Post (queryUrl databaseId) (nextBody startCursor body))
  = Resolved result ->
  results result = None ->
  getPagesLoop server (S fuel) databaseId true startCursor body pages log
  = getPagesLoop server fuel databaseId (has_more result)
      (next_cursor result) (nextBody startCursor body) pages
      (log ++ [Post (queryUrl databaseId) (nextBody startCursor body)]).
Proof.
  intros H Hnone. rewrite getPagesLoop_S. cbv zeta. by rewrite H, Hnone.
Qed.

(** More fuel never changes a result. *)
Lemma attachChildren_mono
    (recur recur' : string -> list Request
                    -> option (list Block * list Request)) :
  (forall id log r, recur id log = Some r -> recur' id log = Some r) ->
  forall blocks log r,
    attachChildren recur blocks log = Some r ->
    attachChildren recur' blocks log = Some r.
Proof.
  intros Hrec. induction blocks as [|b blocks IH]; intros log r; simpl; [done|].
  destruct (has_children b).
  - destruct (recur (block_id b) log) as [[cs log1]|] eqn:Hb; [|done].
    rewrite (Hrec _ _ _ Hb).
    destruct (attachChildren recur blocks log1) as [[rest' log2]|] eqn:Hr;
      [|done].
    by rewrite (IH _ _ Hr).
  - destruct (attachChildren recur blocks log) as [[rest' log2]|] eqn:Hr;
      [|done].
    by rewrite (IH _ _ Hr).
Qed.

Lemma getBlocksLoop_mono_S fuel :
  forall id hasMore blockContent startCursor log r,
    getBlocksLoop server fuel id hasMore blockContent startCursor log = Some r ->
    getBlocksLoop server (S fuel) id hasMore blockContent startCursor log
    = Some r.
Proof.
  induction fuel as [|fuel IH]; intros id hasMore blockContent startCursor log r.
  { destruct hasMore; [done|]. by rewrite !getBlocksLoop_done. }
  destruct hasMore; [|by rewrite !getBlocksLoop_done].
  rewrite (getBlocksLoop_S (S fuel)), (getBlocksLoop_S fuel). cbv zeta.
  destruct (listChildren server log (Get (childrenUrl id startCursor)))
    as [|result]; [apply IH|].
  destruct (results result) as [blocks|]; [|apply IH].
  destruct (attachChildren (getBlocks server fuel) blocks _)
    as [[blocks' log2]|] eqn:Hattach; [|done].
  intros Hrun.
  rewrite (attachChildren_mono (getBlocks server fuel)
             (getBlocks server (S fuel))
             (fun cid l r' => IH cid true [] (VString EmptyString) l r')
             _ _ _ Hattach).
  by apply IH.
Qed.

Lemma getBlocksLoop_mono fuel fuel' id hasMore blockContent startCursor log r :
  fuel <= fuel' ->
  getBlocksLoop server fuel id hasMore blockContent startCursor log = Some r ->
  getBlocksLoop server fuel' id hasMore blockContent startCursor log = Some r.
Proof.
  induction 1 as [|fuel' _ IH]; [done|].
  intros H. apply getBlocksLoop_mono_S. by apply IH.
Qed.

End Fetcher.

Lemma flaky_run :
  getBlocks flakyServer 4 "b" []
  = Some ([x1; x2; x3], [Get url1; Get url2; Get url2; Get url3]).
Proof. vm_compute. reflexivity. Qed.

Lemma flaky_result fuel items log :
  getBlocks flakyServer fuel "b" [] = Some (items, log) ->
  items = [x1; x2; x3].
Proof.
  intros H. destruct (Nat.le_ge_cases fuel 4) as [Hle|Hge].
  - apply (getBlocksLoop_mono flakyServer _ _ _ _ _ _ _ _ Hle) in H.
    fold (getBlocks flakyServer 4 "b" []) in H. rewrite flaky_run in H.
    congruence.
  - pose proof (getBlocksLoop_mono flakyServer _ _ _ _ _ _ _ _ Hge flaky_run)
      as H'.
    fold (getBlocks flakyServer fuel "b" []) in H'. congruence.
Qed.

Lemma down_loop fuel blockContent log :
  getBlocksLoop downServer fuel "b" true blockContent (VString "c1") log = None.
Proof.
  revert log. induction fuel as [|fuel IH]; intros log; [done|].
  rewrite getBlocksLoop_rejected; [apply IH | reflexivity].
Qed.

Lemma down_run fuel : getBlocks downServer fuel "b" [] = None.
Proof.
  destruct fuel as [|fuel]; [done|].
  unfold getBlocks. rewrite getBlocksLoop_S.
  change (listChildren downServer []
            (Get (childrenUrl "b" (VString EmptyString))))
    with (Resolved page1).
  cbv zeta. simpl results. simpl attachChildren. simpl has_more.
  simpl next_cursor. apply down_loop.
Qed.

(** C1 (as stated, refuted). The request for page 2 of 3 of a block
    listing is rejected.  When it is rejected once, [getBlocks] asks again
    and returns the items of all three pages, never those of page 1 alone;
    when it is rejected every time, [getBlocks] does not return at all. *)
Lemma failed_page_counterexample :
  listChildren flakyServer [Get url1] (Get url2) = Rejected /\
  getBlocks flakyServer 4 "b" []
  = Some ([x1; x2; x3], [Get url1; Get url2; Get url2; Get url3]) /\
  (forall fuel log, getBlocks flakyServer fuel "b" [] <> Some ([x1], log)) /\
  (forall fuel, getBlocks downServer fuel "b" [] = None).
Proof.
  split; [reflexivity|]. split; [apply flaky_run|]. split.
  - intros fuel log H. apply flaky_result in H. discriminate.
  - apply down_run.
Qed.

(** C1 (amended). In both pagination loops an iteration whose request is
    rejected, or whose body is not JSON, raises nothing and leaves the
    items collected so far, the cursor and the has-more flag as they were:
    the loop goes round again and issues the request anew.  In [getBlocks]
    the same holds for a body without iterable results.  In [getPages] such
    a body has already overwritten the cursor and the has-more flag, so the
    loop carries on from them with the records collected so far and ends
    there when the body reports no more.  For the listing whose second
    page is rejected once, the items of all three pages are returned in
    order, after four requests. *)
Theorem failed_iteration_goes_round (server : Server) (fuel : nat) :
  (forall id blockContent startCursor log,
     listChildren server log (Get (childrenUrl id startCursor)) = Rejected ->
     getBlocksLoop server (S fuel) id true blockContent startCursor log
     = getBlocksLoop server fuel id true blockContent startCursor
         (log ++ [Get (childrenUrl id startCursor)])) /\
  (forall id blockContent startCursor log result,
     listChildren server log (Get (childrenUrl id startCursor))
     = Resolved result ->
     results result = None ->
     getBlocksLoop server (S fuel) id true blockContent startCursor log
     = getBlocksLoop server fuel id true blockContent startCursor
         (log ++ [Get (childrenUrl id startCursor)])) /\
  (forall databaseId startCursor body pages log,
     queryDatabase server log
       (Post (queryUrl databaseId) (nextBody startCursor body)) = Rejected ->
     getPagesLoop server (S fuel) databaseId true startCursor body pages log
     = getPagesLoop server fuel databaseId true startCursor
         (nextBody startCursor body) pages
         (log ++ [Post (queryUrl databaseId) (nextBody startCursor body)])) /\
  (forall databaseId startCursor body pages log result,
     queryDatabase server log
       (Post (queryUrl databaseId) (nextBody startCursor body))
     = Resolved result ->
     results result = None ->
     getPagesLoop server (S fuel) databaseId true startCursor body pages log
     = getPagesLoop server fuel databaseId (has_more result)
         (next_cursor result) (nextBody startCursor body) pages
         (log ++ [Post (queryUrl databaseId) (nextBody startCursor body)])
     /\ (has_more result = false ->
         getPagesLoop server (S fuel) databaseId true startCursor body pages
           log
         = Some (pages,
                 log ++ [Post (queryUrl databaseId)
                           (nextBody startCursor body)]))) /\
  getBlocks flakyServer 4 "b" []
  = Some ([x1; x2; x3], [Get url1; Get url2; Get url2; Get url3]).
Proof.
  split; [intros; by apply getBlocksLoop_rejected|].
  split; [intros; by eapply getBlocksLoop_no_results|].
  split; [intros; by apply getPagesLoop_rejected|].
  split; [|apply flaky_run].
  intros databaseId startCursor body pages log result H Hnone.
  rewrite (getPagesLoop_no_results _ _ _ _ _ _ _ _ H Hnone).
  split; [done|]. intros ->. apply getPagesLoop_done.
Qed.

Lemma failed_iteration_goes_round_witness :
  getBlocksLoop flakyServer 3 "b" true [x1] (VString "c1") [Get url1]
  = getBlocksLoop flakyServer 2 "b" true [x1] (VString "c1")
      [Get url1; Get url2].
Proof.
  apply (proj1 (failed_iteration_goes_round flakyServer 2) "b" [x1]
           (VString "c1") [Get url1]).
  reflexivity.
Defined.

Section Pagination.

Variable server : Server.

Lemma attachChildren_leaves recur blocks log :
  Forall (fun b => has_children b = false) blocks ->
  attachChildren recur blocks log = Some (blocks, log).
Proof.
  induction 1 as [|b blocks Hb _ IH]; simpl; [done|].
  by rewrite Hb, IH.
Qed.

Lemma attachChildren_attached recur blocks log blocks' log' :
  attachChildren recur blocks log = Some (blocks', log') ->
  Forall2 attached blocks blocks'.
Proof.
  revert log blocks' log'.
  induction blocks as [|b blocks IH]; intros log blocks' log'; simpl.
  { intros [= <- <-]. constructor. }
  destruct (has_children b).
  - destruct (recur (block_id b) log) as [[cs log1]|]; [|done].
    destruct (attachChildren recur blocks log1) as [[rest' log2]|] eqn:Hr;
      [|done].
    intros [= <- <-]. constructor; [by exists cs | by eapply IH].
  - destruct (attachChildren recur blocks log) as [[rest' log2]|] eqn:Hr;
      [|done].
    intros [= <- <-]. constructor; [|by eapply IH].
    exists (children b). by destruct b.
Qed.

Lemma fetchChildren_sameRecord recur found log found' log' :
  fetchChildren recur found log = Some (found', log') ->
  Forall2 sameRecord found found'.
Proof.
  revert log found' log'.
  induction found as [|p found IH]; intros log found' log'; simpl.
  { intros [= <- <-]. constructor. }
  destruct (recur (page_id p) log) as [[cs log1]|]; [|done].
  destruct (fetchChildren recur found log1) as [[rest' log2]|] eqn:Hr; [|done].
  intros [= <- <-]. constructor; [by split | by eapply IH].
Qed.

Lemma fetchChildren_mono
    (recur recur' : string -> list Request
                    -> option (list Block * list Request)) :
  (forall id log r, recur id log = Some r -> recur' id log = Some r) ->
  forall found log r,
    fetchChildren recur found log = Some r ->
    fetchChildren recur' found log = Some r.
Proof.
  intros Hrec. induction found as [|p found IH]; intros log r; simpl; [done|].
  destruct (recur (page_id p) log) as [[cs log1]|] eqn:Hp; [|done].
  rewrite (Hrec _ _ _ Hp).
  destruct (fetchChildren recur found log1) as [[rest' log2]|] eqn:Hr; [|done].
  by rewrite (IH _ _ Hr).
Qed.

Lemma getBlocks_mono fuel fuel' id log r :
  fuel <= fuel' ->
  getBlocks server fuel id log = Some r ->
  getBlocks server fuel' id log = Some r.
Proof. apply getBlocksLoop_mono. Qed.

(** [getBlocks] on a listing of leaves. *)
Lemma getBlocksLoop_leaves N :
  forall pages id startCursor blockContent log,
    moreThenStop N pages ->
    servesLeaves server id startCursor log pages ->
    getBlocksLoop server (S N) id true blockContent startCursor log
    = Some (blockContent ++ itemsOf pages,
            log ++ blockRequests id startCursor pages).
Proof.
  induction N as [|N IH];
    intros [|result rest] id startCursor blockContent log Hmore Hserves;
    try done.
  - destruct rest; [|done]. simpl in Hmore.
    destruct Hserves as (Hreq & (blocks & Hres & Hleaves) & _).
    rewrite getBlocksLoop_S. cbv zeta. rewrite Hreq, Hres.
    rewrite attachChildren_leaves by done. rewrite Hmore.
    rewrite getBlocksLoop_done. unfold itemsOf. simpl. rewrite Hres. simpl.
    by rewrite List.app_nil_r.
  - destruct Hmore as [Hmore Hrest].
    destruct Hserves as (Hreq & (blocks & Hres & Hleaves) & Hserves).
    rewrite getBlocksLoop_S. cbv zeta. rewrite Hreq, Hres.
    rewrite attachChildren_leaves by done. rewrite Hmore.
    rewrite (IH rest) by done.
    unfold itemsOf. simpl. rewrite Hres. simpl.
    by rewrite <- !app_assoc.
Qed.

Lemma blockRequests_length id startCursor pages :
  length (blockRequests id startCursor pages) = length pages.
Proof.
  revert startCursor. induction pages as [|r pages IH]; intros sc; simpl;
    [done | by rewrite IH].
Qed.

Lemma moreThenStop_length {T} N (pages : list (ListResult T)) :
  moreThenStop N pages -> length pages = S N.
Proof.
  revert pages. induction N as [|N IH]; intros [|r [|r' rest]]; simpl; try done.
  - intros [_ H]. by destruct N.
  - intros [_ H]. f_equal. by apply (IH (r' :: rest)).
Qed.

Lemma itemsOf_cons {T} (result : ListResult T) rest items :
  results result = Some items ->
  itemsOf (result :: rest) = items ++ itemsOf rest.
Proof. intros H. unfold itemsOf. simpl. by rewrite H. Qed.

Lemma prefix_app (p s : string) : String.prefix p (p +:+ s) = true.
Proof.
  induction p as [|c p IH]; simpl; [by destruct s|].
  by destruct (ascii_dec c c).
Qed.

Lemma prefix_refl (p : string) : String.prefix p p = true.
Proof.
  induction p as [|c p IH]; simpl; [done|]. by destruct (ascii_dec c c).
Qed.

Lemma addresses_childrenUrl id startCursor :
  addresses id (Get (childrenUrl id startCursor)) = true.
Proof.
  unfold addresses, childrenUrl, startsWith. fold (listingUrl id).
  destruct (truthy startCursor); [apply prefix_app | apply prefix_refl].
Qed.

Lemma countTo_snoc id startCursor log :
  countTo id (log ++ [Get (childrenUrl id startCursor)]) = S (countTo id log).
Proof.
  unfold countTo. rewrite List.filter_app, List.length_app.
  cbn [List.filter]. rewrite addresses_childrenUrl. simpl. lia.
Qed.

(** [getBlocks] on a listing whose items may have children. *)
Lemma getBlocksLoop_serves fuel0 id N :
  forall pages startCursor blockContent log out log',
    moreThenStop N pages ->
    servesBlocks server fuel0 id startCursor log pages out log' ->
    getBlocksLoop server (S N + fuel0) id true blockContent startCursor log
    = Some (blockContent ++ out, log')
    /\ Forall2 attached (itemsOf pages) out
    /\ countTo id log' = countTo id log + S N.
Proof.
  induction N as [|N IH];
    intros [|result rest] startCursor blockContent log out log' Hmore Hserves;
    try done.
  - destruct rest; [|done]. simpl in Hmore.
    destruct Hserves
      as (Hreq & blocks & blocks' & log2 & out' & Hres & Hatt & Hto
          & [-> ->] & ->).
    simpl Nat.add. rewrite getBlocksLoop_S. cbv zeta. rewrite Hreq, Hres.
    rewrite Hatt, Hmore, getBlocksLoop_done.
    rewrite (itemsOf_cons _ _ _ Hres). unfold itemsOf. simpl.
    rewrite !List.app_nil_r. split; [done|]. split.
    + by eapply attachChildren_attached.
    + rewrite Hto, countTo_snoc. lia.
  - destruct Hmore as [Hmore Hrest].
    destruct Hserves
      as (Hreq & blocks & blocks' & log2 & out' & Hres & Hatt & Hto
          & Hserves & ->).
    change (S (S N) + fuel0) with (S (S N + fuel0)).
    rewrite getBlocksLoop_S. cbv zeta. rewrite Hreq, Hres.
    rewrite (attachChildren_mono (getBlocks server fuel0)
               (getBlocks server (S N + fuel0))
               (fun cid l r H =>
                  getBlocks_mono fuel0 (S N + fuel0) cid l r
                    (Nat.le_add_l _ _) H)
               _ _ _ Hatt).
    rewrite Hmore.
    destruct (IH rest (next_cursor result) (blockContent ++ blocks') log2
                out' log' Hrest Hserves) as (Hrun & Hout & Hcount).
    rewrite Hrun, <- app_assoc. split; [done|]. split.
    + rewrite (itemsOf_cons _ _ _ Hres). apply Forall2_app; [|done].
      by eapply attachChildren_attached.
    + rewrite Hcount, Hto, countTo_snoc. lia.
Qed.

(** [getBlocks] issues no query to the record listing. *)
Lemma countPosts_snoc_get log url :
  countPosts (log ++ [Get url]) = countPosts log.
Proof.
  unfold countPosts. rewrite List.filter_app. simpl.
  by rewrite List.app_nil_r.
Qed.

Lemma countPosts_snoc_post log url body :
  countPosts (log ++ [Post url body]) = S (countPosts log).
Proof.
  unfold countPosts. rewrite List.filter_app, List.length_app. simpl. lia.
Qed.

Lemma attachChildren_countPosts recur :
  (forall id log r,
     recur id log = Some r -> countPosts (snd r) = countPosts log) ->
  forall blocks log r,
    attachChildren recur blocks log = Some r ->
    countPosts (snd r) = countPosts log.
Proof.
  intros Hrec. induction blocks as [|b blocks IH]; intros log r; simpl.
  { by intros [= <-]. }
  destruct (has_children b).
  - destruct (recur (block_id b) log) as [[cs log1]|] eqn:Hb; [|done].
    destruct (attachChildren recur blocks log1) as [[rest' log2]|] eqn:Hr;
      [|done].
    intros [= <-]. simpl.
    apply IH in Hr. apply Hrec in Hb. simpl in *. congruence.
  - destruct (attachChildren recur blocks log) as [[rest' log2]|] eqn:Hr;
      [|done].
    intros [= <-]. simpl. apply (IH _ _ Hr).
Qed.

Lemma getBlocksLoop_countPosts fuel :
  forall id hasMore blockContent startCursor log r,
    getBlocksLoop server fuel id hasMore blockContent startCursor log = Some r ->
    countPosts (snd r) = countPosts log.
Proof.
  induction fuel as [|fuel IH]; intros id hasMore blockContent startCursor log r.
  { destruct hasMore; [done|]. rewrite getBlocksLoop_done. by intros [= <-]. }
  destruct hasMore; [|rewrite getBlocksLoop_done; by intros [= <-]].
  rewrite getBlocksLoop_S. cbv zeta.
  destruct (listChildren server log (Get (childrenUrl id startCursor)))
    as [|result].
  { intros H. apply IH in H. by rewrite countPosts_snoc_get in H. }
  destruct (results result) as [blocks|].
  2:{ intros H. apply IH in H. by rewrite countPosts_snoc_get in H. }
  destruct (attachChildren (getBlocks server fuel) blocks _)
    as [[blocks' log2]|] eqn:Hatt; [|done].
  intros H. apply IH in H. rewrite H.
  apply (attachChildren_countPosts (getBlocks server fuel)) in Hatt.
  - simpl in Hatt. by rewrite Hatt, countPosts_snoc_get.
  - intros cid l r'. apply IH.
Qed.

Lemma fetchChildren_countPosts fuel found :
  forall log r,
    fetchChildren (getBlocks server fuel) found log = Some r ->
    countPosts (snd r) = countPosts log.
Proof.
  induction found as [|p found IH]; intros log r; simpl.
  { by intros [= <-]. }
  destruct (getBlocks server fuel (page_id p) log) as [[cs log1]|] eqn:Hp;
    [|done].
  destruct (fetchChildren _ found log1) as [[rest' log2]|] eqn:Hr; [|done].
  intros [= <-]. simpl. apply IH in Hr.
  apply getBlocksLoop_countPosts in Hp. simpl in *. congruence.
Qed.

(** [getPages] on a record listing served page by page. *)
Lemma getPagesLoop_serves fuel0 databaseId N :
  forall pages startCursor body collected log out log',
    moreThenStop N pages ->
    servesPages server fuel0 databaseId startCursor body log pages out log' ->
    getPagesLoop server (S N + fuel0) databaseId true startCursor body
      collected log
    = Some (collected ++ out, log')
    /\ Forall2 sameRecord (itemsOf pages) out
    /\ countPosts log' = countPosts log + S N.
Proof.
  induction N as [|N IH];
    intros [|result rest] startCursor body collected log out log' Hmore
      Hserves; try done.
  - destruct rest; [|done]. simpl in Hmore.
    destruct Hserves
      as (Hreq & found & found' & log2 & out' & Hres & Hfetch & [-> ->] & ->).
    simpl Nat.add. rewrite getPagesLoop_S. cbv zeta. rewrite Hreq, Hres.
    rewrite Hfetch, Hmore, getPagesLoop_done.
    rewrite (itemsOf_cons _ _ _ Hres). unfold itemsOf. simpl.
    rewrite !List.app_nil_r. split; [done|]. split.
    + by eapply fetchChildren_sameRecord.
    + apply fetchChildren_countPosts in Hfetch. simpl in Hfetch.
      rewrite Hfetch, countPosts_snoc_post. lia.
  - destruct Hmore as [Hmore Hrest].
    destruct Hserves
      as (Hreq & found & found' & log2 & out' & Hres & Hfetch & Hserves & ->).
    change (S (S N) + fuel0) with (S (S N + fuel0)).
    rewrite getPagesLoop_S. cbv zeta. rewrite Hreq, Hres.
    rewrite (fetchChildren_mono (getBlocks server fuel0)
               (getBlocks server (S N + fuel0))
               (fun cid l r H =>
                  getBlocks_mono fuel0 (S N + fuel0) cid l r
                    (Nat.le_add_l _ _) H)
               _ _ _ Hfetch).
    rewrite Hmore.
    destruct (IH rest (next_cursor result) (nextBody startCursor body)
                (collected ++ found') log2 out' log' Hrest Hserves)
      as (Hrun & Hout & Hcount).
    rewrite Hrun, <- app_assoc. split; [done|]. split.
    + rewrite (itemsOf_cons _ _ _ Hres). apply Forall2_app; [|done].
      by eapply fetchChildren_sameRecord.
    + apply fetchChildren_countPosts in Hfetch. simpl in Hfetch.
      rewrite Hcount, Hfetch, countPosts_snoc_post. lia.
Qed.

End Pagination.

(** C5. Against a paginated source that reports has-more for [N] pages and
    then stops, the fetcher asks that source [N + 1] times and returns the
    items of all [N + 1] pages in the order received.  For [getBlocks] on
    items without children the log grows by exactly the [N + 1] requests of
    the listing and the result is the concatenation of the pages; on items
    with children, whose nested fetches go to other listings, the listing
    is asked [N + 1] times and the result is that concatenation with the
    fetched children attached to each item.  For [getPages] the result is the
    concatenation of the records, each with its block tree attached, and
    the record listing has been queried [N + 1] times. *)
Theorem pagination_fetches_every_page (server : Server) (N : nat) :
  (forall pages id log,
     moreThenStop N pages ->
     servesLeaves server id (VString EmptyString) log pages ->
     getBlocks server (S N) id log
     = Some (itemsOf pages,
             log ++ blockRequests id (VString EmptyString) pages)
     /\ length (blockRequests id (VString EmptyString) pages) = N + 1) /\
  (forall pages fuel0 id log out log',
     moreThenStop N pages ->
     servesBlocks server fuel0 id (VString EmptyString) log pages out log' ->
     getBlocks server (S N + fuel0) id log = Some (out, log')
     /\ Forall2 attached (itemsOf pages) out
     /\ countTo id log' = countTo id log + (N + 1)) /\
  (forall pages fuel0 databaseId out log',
     moreThenStop N pages ->
     servesPages server fuel0 databaseId (VString EmptyString) None [] pages
       out log' ->
     getPages server (S N + fuel0) databaseId = Some (out, log')
     /\ Forall2 sameRecord (itemsOf pages) out
     /\ countPosts log' = N + 1).
Proof.
  split; [|split].
  - intros pages id log Hmore Hserves. split.
    + unfold getBlocks. by rewrite (getBlocksLoop_leaves server N pages).
    + rewrite blockRequests_length, (moreThenStop_length N pages) by done.
      lia.
  - intros pages fuel0 id log out log' Hmore Hserves. unfold getBlocks.
    replace (N + 1) with (S N) by lia.
    apply (getBlocksLoop_serves server fuel0 id N pages _ [] log out log'
             Hmore Hserves).
  - intros pages fuel0 databaseId out log' Hmore Hserves. unfold getPages.
    destruct (getPagesLoop_serves server fuel0 databaseId N pages _ None []
                [] out log' Hmore Hserves) as (Hrun & Hout & Hcount).
    split; [exact Hrun|]. split; [exact Hout|].
    rewrite Hcount. unfold countPosts. simpl. lia.
Qed.

Lemma recordPages_served :
  moreThenStop 1 recordPages /\
  servesPages twoPageServer 2 "db" (VString EmptyString) None [] recordPages
    recordsFetched requestsIssued.
Proof.
  split; [simpl; auto|].
  simpl. split; [reflexivity|].
  eexists _, _, _, _. split; [reflexivity|].
  split; [vm_compute; reflexivity|].
  split; [|reflexivity]. split; [reflexivity|].
  eexists _, _, _, _. split; [reflexivity|].
  split; [vm_compute; reflexivity|].
  split; [|reflexivity]. split; reflexivity.
Defined.

Lemma pagination_fetches_every_page_witness :
  getBlocks steadyServer 3 "b" []
  = Some ([x1; x2; x3], [Get url1; Get url2; Get url3])
  /\ getBlocks twoPageServer 2 "A" []
     = Some ([setChildren toggleBlock [x1]],
             [Get (childrenUrl "A" (VString EmptyString));
              Get (childrenUrl "t1" (VString EmptyString))])
  /\ getPages twoPageServer 4 "db" = Some (recordsFetched, requestsIssued)
  /\ countPosts requestsIssued = 1 + 1.
Proof.
  destruct (pagination_fetches_every_page steadyServer 2) as (Hleaves & _).
  destruct (pagination_fetches_every_page twoPageServer 0) as (_ & Hblocks & _).
  destruct (pagination_fetches_every_page twoPageServer 1) as (_ & _ & Hpages).
  split; [|split].
  - apply (Hleaves [page1; page2; page3] "b" []).
    + simpl. auto.
    + simpl. repeat split; try reflexivity;
        eexists; (split; [reflexivity | repeat constructor]).
  - apply (Hblocks [mkResult (Some [toggleBlock]) VNull false] 1 "A" []).
    + reflexivity.
    + simpl. split; [reflexivity|].
      eexists _, _, _, _. split; [reflexivity|].
      split; [vm_compute; reflexivity|].
      split; [vm_compute; reflexivity|]. split; [|reflexivity].
      split; reflexivity.
  - destruct (Hpages recordPages 2 "db" recordsFetched requestsIssued
                (proj1 recordPages_served) (proj2 recordPages_served))
      as (Hrun & _ & Hcount).
    split; [exact Hrun | exact Hcount].
Defined.

(* ===================================================================== *)
(** * Further properties of the annotation pipeline and the renderer *)
(* ===================================================================== *)

Lemma append_nil_r (s : string) : s +:+ EmptyString = s.
Proof.
  induction s as [|c s IH]; [done|].
  change (String c (s +:+ EmptyString) = String c s). by rewrite IH.
Qed.

Lemma append_assoc (s t u : string) : (s +:+ t) +:+ u = s +:+ (t +:+ u).
Proof.
  induction s as [|c s IH]; [done|].
  change (String c ((s +:+ t) +:+ u) = String c (s +:+ (t +:+ u))).
  by rewrite IH.
Qed.

Lemma fold_appendSpan textBlocks (text : string) :
  fold_left appendSpan textBlocks text
  = text +:+ fold_left appendSpan textBlocks EmptyString.
Proof.
  revert text. induction textBlocks as [|tb tbs IH]; intros text; simpl.
  { by rewrite append_nil_r. }
  rewrite IH, (IH (appendSpan EmptyString tb)). unfold appendSpan.
  by rewrite append_assoc.
Qed.

(** X1. The renderer is a fold that only appends: the rendering of a
    sequence of spans is the rendering of any initial part followed by the
    rendering of the rest, so span order is output order and each span
    contributes the same text wherever it stands. *)
Theorem blockToString_app (before after : list TextBlock) :
  blockToString (before ++ after)
  = blockToString before +:+ blockToString after.
Proof.
  unfold blockToString. rewrite fold_left_app.
  apply fold_appendSpan.
Qed.

Lemma extend_inactive (predicate : Obj -> Value) (transformer : Obj -> Obj)
    (data : Obj) :
  truthy (predicate data) = false ->
  Pipe.extend (ifTrue predicate transformer returnOrigin) data = data.
Proof.
  intros H. unfold Pipe.extend, spread, ifTrue, returnOrigin. rewrite H.
  apply (idemp (∪)).
Qed.

(** X2. On a span context on which no stage fires (no style flag, color
    default, no link, no equation mark) the pipeline returns the context
    itself: every stage is a pass-through. *)
Theorem stylize_passes_through (data : Obj) :
  inert data -> Pipe.process stylize data = data.
Proof.
  intros [(Hb & Hi & Hc & Hs & Hu & Hcol & Hl) He].
  unfold stylize. cbn [Pipe.process Pipe.andThen Pipe.pipeExtend].
  unfold annotateBold, annotateItalic, annotateCode, annotateStrikethrough,
    annotateUnderline, annotateColor, annotateLink, annotateEquation.
  rewrite (extend_inactive (pick "bold")) by exact Hb.
  rewrite (extend_inactive (pick "italic")) by exact Hi.
  rewrite (extend_inactive (pick "code")) by exact Hc.
  rewrite (extend_inactive (pick "strikethrough")) by exact Hs.
  rewrite (extend_inactive (pick "underline")) by exact Hu.
  rewrite (extend_inactive colorIsSet) by (unfold colorIsSet; by rewrite Hcol).
  rewrite (extend_inactive (pick "link")) by exact Hl.
  by rewrite (extend_inactive (pick "equation")) by exact He.
Qed.

Lemma stylize_passes_through_witness :
  Pipe.process stylize (linkedContext VNull) = linkedContext VNull.
Proof.
  apply (stylize_passes_through (linkedContext VNull)).
  repeat split; reflexivity.
Defined.

Lemma inert_insert_content data (v : Value) :
  inert data -> inert (<["content" := v]> data).
Proof.
  unfold inert, unstyled. rewrite !get_insert_ne by discriminate. tauto.
Qed.

(** X3. A span whose merged fields carry no style renders without markup:
    a text span as its content field, a user or page mention as its plain
    text. *)
Theorem unstyled_span_rendering (textBlock : TextBlock) :
  inert (mergedFields textBlock) ->
  (tb_type textBlock = TypeText ->
   blockToString [textBlock]
   = toString (get "content" (mergedFields textBlock))) /\
  (tb_type textBlock = TypeMention MentionUser \/
   tb_type textBlock = TypeMention MentionPage ->
   blockToString [textBlock] = plain_text textBlock).
Proof.
  intros Hinert. unfold blockToString. simpl. unfold appendSpan, spanData.
  fold (mergedFields textBlock). split.
  - intros ->. by rewrite stylize_passes_through.
  - intros [-> | ->];
      rewrite stylize_passes_through by (by apply inert_insert_content);
      by rewrite get_insert_eq.
Qed.

Lemma unstyled_span_rendering_witness :
  blockToString [helloSpan] = "hi" /\ blockToString [userMention] = "@Ada".
Proof.
  split.
  - apply (proj1 (unstyled_span_rendering helloSpan
                    ltac:(repeat split; reflexivity)) eq_refl).
  - apply (proj2 (unstyled_span_rendering userMention
                    ltac:(repeat split; reflexivity))).
    by left.
Defined.

(** X4. A mention of a kind other than user, date and page keeps whatever
    content its merged fields have; a mention object carries no text
    object, so without a content key the span renders as the word
    undefined. *)
Theorem other_mention_renders_undefined (textBlock : TextBlock)
    (kind : string) :
  tb_type textBlock = TypeMention (MentionOther kind) ->
  inert (mergedFields textBlock) ->
  mergedFields textBlock !! "content" = None ->
  blockToString [textBlock] = "undefined".
Proof.
  intros Htype Hinert Hnone. unfold blockToString. simpl.
  unfold appendSpan, spanData. rewrite Htype. fold (mergedFields textBlock).
  rewrite stylize_passes_through by done.
  unfold get. by rewrite Hnone.
Qed.

Lemma other_mention_renders_undefined_witness :
  blockToString [databaseMention] = "undefined".
Proof.
  apply (other_mention_renders_undefined databaseMention "database");
    [reflexivity | repeat split; reflexivity | reflexivity].
Defined.

(** X5. The color stage fires on everything but the string default: a
    span context with no color key at all (and no other stage firing) has
    its content wrapped in a span element whose notion-color attribute is
    the word undefined. *)
Theorem missing_color_is_wrapped (data : Obj) :
  colorless data ->
  get "content" (Pipe.process stylize data)
  = VString ("<span notion-color=" +:+ dq +:+ "undefined" +:+ dq +:+ ">"
               +:+ toString (get "content" data) +:+ "</span>").
Proof.
  intros (Hb & Hi & Hc & Hs & Hu & Hcol & Hl & He).
  rewrite stylize_content. unfold orderedWrappers, styled, colorOpen.
  rewrite Hb, Hi, Hc, Hs, Hu, Hl, He. unfold get at 1 2. rewrite Hcol.
  reflexivity.
Qed.

Lemma missing_color_is_wrapped_witness :
  get "content" (Pipe.process stylize bareContext)
  = VString ("<span notion-color=" +:+ dq +:+ "undefined" +:+ dq
               +:+ ">x</span>").
Proof.
  apply (missing_color_is_wrapped bareContext). repeat split; reflexivity.
Defined.

(** X6. The target written by the link stage: the url field of the link
    when it has a truthy one, otherwise the link value itself, so a link
    given as a string is used as it is and a link object without url
    yields the text [object Object]. *)
Theorem link_target_forms (data : Obj) :
  onlyLinked data ->
  (forall fields, get "link" data = VObject fields ->
     truthy (get "url" fields) = true ->
     get "content" (Pipe.process stylize data)
     = VString ("[" +:+ toString (get "content" data) +:+ "]("
                  +:+ toString (get "url" fields) +:+ ")")) /\
  (forall fields, get "link" data = VObject fields ->
     truthy (get "url" fields) = false ->
     get "content" (Pipe.process stylize data)
     = VString ("[" +:+ toString (get "content" data)
                  +:+ "]([object Object])")) /\
  (forall target, get "link" data = VString target ->
     get "content" (Pipe.process stylize data)
     = VString ("[" +:+ toString (get "content" data) +:+ "]("
                  +:+ target +:+ ")")).
Proof.
  intros (Hb & Hi & Hc & Hs & Hu & Hcol & Hl & He).
  rewrite stylize_content. unfold orderedWrappers, styled, linkClose.
  rewrite Hb, Hi, Hc, Hs, Hu, Hcol, Hl, He. unfold linkTarget.
  split; [|split].
  - intros fields -> Hurl. by rewrite Hurl.
  - intros fields -> Hurl. by rewrite Hurl.
  - intros target ->. reflexivity.
Qed.

Lemma link_target_forms_witness :
  get "content" (Pipe.process stylize (linkedContext (VObject ∅)))
  = VString "[x]([object Object])" /\
  get "content" (Pipe.process stylize (linkedContext (VString "/about")))
  = VString "[x](/about)".
Proof.
  split.
  - apply (proj1 (proj2 (link_target_forms (linkedContext (VObject ∅))
                           ltac:(repeat split; reflexivity))) ∅);
      reflexivity.
  - apply (proj2 (proj2 (link_target_forms (linkedContext (VString "/about"))
                           ltac:(repeat split; reflexivity))) "/about").
    reflexivity.
Defined.

(* ===================================================================== *)
(** * Further properties of the markdown emitter *)
(* ===================================================================== *)

Lemma emitChild_append paragraph lowerTitleLevel childBlocksString acc
    childBlock :
  emitChild paragraph lowerTitleLevel childBlocksString acc childBlock
  = acc +:+ emitChild paragraph lowerTitleLevel childBlocksString EmptyString
              childBlock.
Proof.
  unfold emitChild.
  repeat match goal with
         | |- context [if ?b then _ else _] =>
             lazymatch b with
             | String.eqb (block_type childBlock) _ => destruct b
             | startsWith (block_type childBlock) _ => destruct b
             end
         end;
    first [ reflexivity | by rewrite append_nil_r ].
Qed.

Lemma fold_visitChild paragraph lowerTitleLevel depth nested blocks acc :
  fold_left (visitChild paragraph lowerTitleLevel depth nested) blocks acc
  = acc +:+ fold_left (visitChild paragraph lowerTitleLevel depth nested)
              blocks EmptyString.
Proof.
  revert acc. induction blocks as [|b blocks IH]; intros acc; simpl.
  { by rewrite append_nil_r. }
  rewrite IH, (IH (visitChild _ _ _ _ EmptyString b)).
  unfold visitChild. rewrite (emitChild_append _ _ _ acc).
  by rewrite append_assoc.
Qed.

(** X7. The emitter only appends: the markdown of a node is the markdown of
    any initial part of its children followed by the markdown of the rest,
    so sibling order is output order and a block renders the same whatever
    precedes it.  The same holds for the children of a page. *)
Theorem markdown_of_siblings_concatenates (before after : list Block)
    (lowerTitleLevel : bool) :
  (forall block depth,
     notionBlockToMarkdown (setChildren block (before ++ after))
       lowerTitleLevel depth
     = notionBlockToMarkdown (setChildren block before) lowerTitleLevel depth
       +:+ notionBlockToMarkdown (setChildren block after) lowerTitleLevel
             depth) /\
  (forall id props,
     pageToMarkdown (mkPage id props (before ++ after)) lowerTitleLevel
     = pageToMarkdown (mkPage id props before) lowerTitleLevel
       +:+ pageToMarkdown (mkPage id props after) lowerTitleLevel).
Proof.
  split.
  - intros block depth. rewrite !notionBlockToMarkdown_unfold. simpl.
    rewrite fold_left_app. apply fold_visitChild.
  - intros id props. unfold pageToMarkdown. simpl.
    rewrite fold_left_app. apply fold_visitChild.
Qed.

(** C4 (as stated, refuted). A paragraph directly under a page whose own
    first span opens a code fence, and whose text is not a table row, is
    followed by a double newline, not by the single one. *)
Lemma fence_paragraph_counterexample :
  block_type fenceParagraph = "paragraph" /\
  (exists first rest,
     block_text fenceParagraph = first :: rest /\
     startsWith (plain_text first) "```" = true) /\
  pageToMarkdown fencePage true = "```js" +:+ EOL_MD +:+ EOL_MD /\
  pageToMarkdown fencePage true <> "```js" +:+ EOL_MD.
Proof.
  split; [reflexivity|]. split; [by eexists _, _|].
  assert (H : pageToMarkdown fencePage true = "```js" +:+ EOL_MD +:+ EOL_MD)
    by (vm_compute; reflexivity).
  split; [exact H|]. rewrite H. vm_compute. discriminate.
Qed.

(** C4 (amended). For a paragraph the emitter appends the rendered text, a
    line break and the nested-children string.  The line break is single
    when the rendered text is a table row, or when the node whose children
    are being reduced, the parent of the paragraph, is itself a paragraph
    whose first span has a plain text opening a code fence; it is double
    otherwise.  So among the children of a block the test reads the
    paragraph field of that block, and among the children of a page, which
    has no such field, only a table row takes the single newline. *)
Theorem paragraph_fence_test_reads_parent :
  (forall paragraph lowerTitleLevel depth nested acc childBlock,
     block_type childBlock = "paragraph" ->
     visitChild paragraph lowerTitleLevel depth nested acc childBlock
     = acc +:+ blockToString (block_text childBlock)
           +:+ (if isTableRow (blockToString (block_text childBlock))
                   || isCodeSnippetLine paragraph
                then EOL_MD else EOL_MD +:+ EOL_MD)
           +:+ childBlocksStringOf depth nested childBlock) /\
  (forall block before childBlock after lowerTitleLevel depth,
     block_type childBlock = "paragraph" ->
     notionBlockToMarkdown
       (setChildren block (before ++ childBlock :: after))
       lowerTitleLevel depth
     = notionBlockToMarkdown (setChildren block before) lowerTitleLevel depth
       +:+ (blockToString (block_text childBlock)
            +:+ (if isTableRow (blockToString (block_text childBlock))
                    || isCodeSnippetLine (paragraphOf block)
                 then EOL_MD else EOL_MD +:+ EOL_MD)
            +:+ childBlocksStringOf depth
                  (fun b => notionBlockToMarkdown b lowerTitleLevel (depth + 2))
                  childBlock)
       +:+ notionBlockToMarkdown (setChildren block after) lowerTitleLevel
             depth) /\
  (forall id props before childBlock after lowerTitleLevel,
     block_type childBlock = "paragraph" ->
     pageToMarkdown (mkPage id props (before ++ childBlock :: after))
       lowerTitleLevel
     = pageToMarkdown (mkPage id props before) lowerTitleLevel
       +:+ (blockToString (block_text childBlock)
            +:+ (if isTableRow (blockToString (block_text childBlock))
                 then EOL_MD else EOL_MD +:+ EOL_MD)
            +:+ childBlocksStringOf 0
                  (fun b => notionBlockToMarkdown b lowerTitleLevel 2)
                  childBlock)
       +:+ pageToMarkdown (mkPage id props after) lowerTitleLevel) /\
  isCodeSnippetLine (paragraphOf fenceParagraph) = true /\
  pageToMarkdown fencePage true = "```js" +:+ EOL_MD +:+ EOL_MD /\
  notionBlockToMarkdown fenceParent true 2 = "let x" +:+ EOL_MD.
Proof.
  split; [apply visitChild_paragraph|].
  split; [|split].
  - intros block before childBlock after lowerTitleLevel depth Htype.
    rewrite !notionBlockToMarkdown_unfold.
    change (children (setChildren block (before ++ childBlock :: after)))
      with (before ++ childBlock :: after).
    change (children (setChildren block before)) with before.
    change (children (setChildren block after)) with after.
    change (paragraphOf (setChildren block (before ++ childBlock :: after)))
      with (paragraphOf block).
    change (paragraphOf (setChildren block before)) with (paragraphOf block).
    change (paragraphOf (setChildren block after)) with (paragraphOf block).
    rewrite fold_left_app. cbn [fold_left].
    rewrite fold_visitChild, visitChild_paragraph by done.
    by rewrite append_assoc.
  - intros id props before childBlock after lowerTitleLevel Htype.
    unfold pageToMarkdown. cbn [page_children].
    rewrite fold_left_app. cbn [fold_left].
    rewrite fold_visitChild, visitChild_paragraph by done.
    rewrite append_assoc. cbn [isCodeSnippetLine].
    by rewrite orb_false_r.
  - split; [reflexivity|]. split; vm_compute; reflexivity.
Qed.

Lemma paragraph_fence_test_reads_parent_witness :
  visitChild None true 0 (fun b => notionBlockToMarkdown b true 2)
    EmptyString fenceParagraph
  = "```js" +:+ EOL_MD +:+ EOL_MD.
Proof.
  rewrite (proj1 paragraph_fence_test_reads_parent None true 0 _ EmptyString
             fenceParagraph eq_refl).
  vm_compute. reflexivity.
Defined.

(** X8. The children of a block are rendered only when its has_children
    flag is set: a block whose flag is unset renders the same whatever
    list of children it carries. *)
Theorem unflagged_children_are_ignored (childBlock : Block)
    (cs : list Block) :
  has_children childBlock = false ->
  (forall paragraph lowerTitleLevel depth nested acc,
     visitChild paragraph lowerTitleLevel depth nested acc
       (setChildren childBlock cs)
     = visitChild paragraph lowerTitleLevel depth nested acc childBlock) /\
  (forall block before after lowerTitleLevel depth,
     notionBlockToMarkdown
       (setChildren block (before ++ setChildren childBlock cs :: after))
       lowerTitleLevel depth
     = notionBlockToMarkdown
         (setChildren block (before ++ childBlock :: after))
         lowerTitleLevel depth).
Proof.
  intros Hflag.
  assert (Hvisit : forall paragraph lowerTitleLevel depth nested acc,
             visitChild paragraph lowerTitleLevel depth nested acc
               (setChildren childBlock cs)
             = visitChild paragraph lowerTitleLevel depth nested acc
                 childBlock).
  { intros. unfold visitChild, childBlocksStringOf, emitChild. simpl.
    by rewrite Hflag. }
  split; [exact Hvisit|].
  intros block before after lowerTitleLevel depth.
  rewrite !notionBlockToMarkdown_unfold. simpl.
  rewrite !fold_left_app. simpl. by rewrite Hvisit.
Qed.

Lemma unflagged_children_are_ignored_witness :
  pageToMarkdown (mkPage "p" [] [strayChildren]) true = "* item" +:+ EOL_MD.
Proof.
  unfold pageToMarkdown, strayChildren. simpl fold_left.
  rewrite (proj1 (unflagged_children_are_ignored bulletItem _ eq_refl)).
  vm_compute. reflexivity.
Defined.

Lemma headingLevel_digit level :
  level < 10 -> headingLevel (headingType level) = level.
Proof.
  intros H. do 10 (destruct level as [|level]; [reflexivity|]). lia.
Qed.

Lemma headingType_dispatch level :
  level < 10 ->
  String.eqb (headingType level) "paragraph" = false /\
  startsWith (headingType level) "heading_" = true.
Proof.
  intros H. do 10 (destruct level as [|level]; [split; reflexivity|]). lia.
Qed.

(** X9. A heading block of level 0 to 9 emits a newline, as many hash
    signs as its level, one more when lowerTitleLevel is set, a space, the
    rendered heading text, a newline and the nested-children string. *)
Theorem heading_is_demoted_by_one (level : nat) (childBlock : Block)
    (paragraph : option (list TextBlock)) (lowerTitleLevel : bool)
    (depth : nat) (nested : Block -> string) (acc : string) :
  level < 10 ->
  block_type childBlock = headingType level ->
  visitChild paragraph lowerTitleLevel depth nested acc childBlock
  = acc +:+ EOL_MD
        +:+ repeat "#" (if lowerTitleLevel then S level else level)
        +:+ " " +:+ blockToString (block_text childBlock) +:+ EOL_MD
        +:+ childBlocksStringOf depth nested childBlock.
Proof.
  intros Hlevel Htype. unfold visitChild, emitChild. rewrite Htype.
  destruct (headingType_dispatch level Hlevel) as [-> ->].
  rewrite headingLevel_digit by done.
  destruct lowerTitleLevel; [|reflexivity].
  change (repeat "#" (S level)) with ("#" +:+ repeat "#" level).
  by rewrite !append_assoc.
Qed.

Lemma heading_is_demoted_by_one_witness :
  visitChild None true 0 (fun _ => EmptyString) EmptyString
    (leaf "h" "heading_2" [plainSpan "Intro"])
  = EOL_MD +:+ "### Intro" +:+ EOL_MD.
Proof.
  rewrite (heading_is_demoted_by_one 2 (leaf "h" "heading_2"
                                          [plainSpan "Intro"])
             None true 0 (fun _ => EmptyString) EmptyString);
    [vm_compute; reflexivity | lia | reflexivity].
Defined.

Lemma visitChild_numbered paragraph lowerTitleLevel depth nested acc
    childBlock :
  block_type childBlock = "numbered_list_item" ->
  has_children childBlock = false ->
  visitChild paragraph lowerTitleLevel depth nested acc childBlock
  = acc +:+ "1. " +:+ blockToString (block_text childBlock) +:+ EOL_MD.
Proof.
  intros Htype Hleaf. unfold visitChild, childBlocksStringOf, emitChild.
  rewrite Htype, Hleaf. simpl. by rewrite append_nil_r.
Qed.

(** X10. Numbered list items are never renumbered: a page whose children
    are numbered list items without children renders as one line per item,
    each starting with the same literal one and full stop. *)
Theorem numbered_items_all_start_with_one (id : string)
    (props : list (string * Property)) (items : list Block)
    (lowerTitleLevel : bool) :
  Forall (fun b => block_type b = "numbered_list_item"
                   /\ has_children b = false) items ->
  pageToMarkdown (mkPage id props items) lowerTitleLevel
  = String.concat EmptyString
      (map (fun b => "1. " +:+ blockToString (block_text b) +:+ EOL_MD)
         items).
Proof.
  unfold pageToMarkdown. simpl.
  induction 1 as [|b items [Htype Hleaf] _ IH]; [done|].
  simpl fold_left. rewrite fold_visitChild, IH.
  rewrite visitChild_numbered by done.
  destruct items as [|b' items']; simpl; [by rewrite append_nil_r|].
  by rewrite !append_assoc.
Qed.

Lemma numbered_items_all_start_with_one_witness :
  pageToMarkdown
    (mkPage "p" [] [numberedItem "n1" "a"; numberedItem "n2" "b";
                    numberedItem "n3" "c"]) true
  = "1. a" +:+ EOL_MD +:+ "1. b" +:+ EOL_MD +:+ "1. c" +:+ EOL_MD.
Proof.
  rewrite (numbered_items_all_start_with_one "p" []
             [numberedItem "n1" "a"; numberedItem "n2" "b";
              numberedItem "n3" "c"] true).
  - vm_compute. reflexivity.
  - repeat constructor.
Defined.

Lemma length_append (s t : string) :
  String.length (s +:+ t) = String.length s + String.length t.
Proof.
  induction s as [|c s IH]; [done|].
  change (S (String.length (s +:+ t)) = S (String.length s + String.length t)).
  by rewrite IH.
Qed.

Lemma substring_all (s : string) : String.substring 0 (String.length s) s = s.
Proof. induction s as [|c s IH]; [done|]. simpl. by rewrite IH. Qed.

Lemma substring_skip (s t : string) :
  String.substring (String.length s) (String.length t) (s +:+ t) = t.
Proof.
  induction s as [|c s IH]; [apply substring_all|].
  change (String.substring (String.length s) (String.length t) (s +:+ t) = t).
  exact IH.
Qed.

Lemma endsWith_app (s t : string) : endsWith (s +:+ t) t = true.
Proof.
  unfold endsWith. rewrite length_append.
  replace (String.length s + String.length t - String.length t)
    with (String.length s) by lia.
  rewrite substring_skip, String.eqb_refl.
  rewrite andb_true_r. apply Nat.leb_le. lia.
Qed.

(** X11. A paragraph whose rendered text starts and ends with a vertical
    bar is a table row: it is followed by a single newline, whatever the
    node it stands under. *)
Theorem table_row_takes_single_newline (childBlock : Block) (inner : string)
    (paragraph : option (list TextBlock)) (lowerTitleLevel : bool)
    (depth : nat) (nested : Block -> string) (acc : string) :
  block_type childBlock = "paragraph" ->
  blockToString (block_text childBlock) = "|" +:+ inner +:+ "|" ->
  visitChild paragraph lowerTitleLevel depth nested acc childBlock
  = acc +:+ ("|" +:+ inner +:+ "|") +:+ EOL_MD
        +:+ childBlocksStringOf depth nested childBlock.
Proof.
  intros Htype Hrow. rewrite visitChild_paragraph by done. rewrite Hrow.
  unfold isTableRow.
  replace (endsWith ("|" +:+ inner +:+ "|") "|") with true
    by (symmetry; rewrite <- append_assoc; apply endsWith_app).
  unfold startsWith. by rewrite prefix_app.
Qed.

Lemma table_row_takes_single_newline_witness :
  pageToMarkdown (mkPage "p" [] [tableRowParagraph]) true
  = "| a | b |" +:+ EOL_MD.
Proof.
  unfold pageToMarkdown. simpl fold_left.
  rewrite (table_row_takes_single_newline tableRowParagraph " a | b "
             None true 0 _ EmptyString eq_refl);
    vm_compute; reflexivity.
Defined.

(* ===================================================================== *)
(** * Properties of the page title and of document assembly *)
(* ===================================================================== *)

Section Lookup.

Context {A : Type}.
Implicit Types (o : list (string * A)) (key : string).

Lemma lookupKey_Some_entry key (a : A) o :
  lookupKey key o = Some a -> In (key, a) o.
Proof.
  induction o as [|[k b] o IH]; simpl; [done|].
  destruct (String.eqb_spec k key) as [->|_].
  - intros [= ->]. by left.
  - intros H. right. by apply IH.
Qed.

Lemma lookupKey_app_in key o1 o2 :
  In key (keys o1) -> lookupKey key (o1 ++ o2) = lookupKey key o1.
Proof.
  induction o1 as [|[k b] o1 IH]; simpl; [done|]. intros [->|Hin].
  - by rewrite String.eqb_refl.
  - destruct (String.eqb k key); [done | by apply IH].
Qed.

End Lookup.

Lemma findKey_none test ks :
  (forall key, In key ks -> test key = false) -> findKey test ks = None.
Proof.
  induction ks as [|k ks IH]; intros H; simpl; [done|].
  rewrite (H k) by (by left). apply IH. intros key Hin. apply H. by right.
Qed.

Lemma findKey_first test before key after :
  (forall k, In k before -> test k = false) -> test key = true ->
  findKey test (before ++ key :: after) = Some key.
Proof.
  intros Hbefore Hkey. induction before as [|k before IH]; simpl.
  { by rewrite Hkey. }
  rewrite (Hbefore k) by (by left). apply IH.
  intros k' Hin. apply Hbefore. by right.
Qed.

(** X12. The page title is the rendering of the first title-typed
    property, the properties before it being typed otherwise; a page with
    no title-typed property, or whose title property does not hold an
    array of spans, makes the call throw a type error. *)
Theorem title_is_first_title_property :
  (forall before key p after spans,
     Forall (fun entry => isTitle (snd entry) = false) before ->
     ~ In key (keys before) ->
     isTitle p = true ->
     prop_value p = PSpans spans ->
     getNotionPageTitle (before ++ (key, p) :: after)
     = inr (blockToString spans)) /\
  (forall before key p after v,
     Forall (fun entry => isTitle (snd entry) = false) before ->
     ~ In key (keys before) ->
     isTitle p = true ->
     prop_value p = PValue v ->
     getNotionPageTitle (before ++ (key, p) :: after) = inl TypeError) /\
  (forall properties,
     Forall (fun entry => isTitle (snd entry) = false) properties ->
     getNotionPageTitle properties = inl TypeError).
Proof.
  assert (Hfound : forall before key p after,
    Forall (fun entry => isTitle (snd entry) = false) before ->
    ~ In key (keys before) -> isTitle p = true ->
    findKey (isTitleKey (before ++ (key, p) :: after))
      (keys (before ++ (key, p) :: after)) = Some key
    /\ lookupKey key (before ++ (key, p) :: after) = Some p).
  { intros before key p after Hbefore Hfresh Htitle.
    assert (Hp : lookupKey key (before ++ (key, p) :: after) = Some p)
      by (by rewrite lookupKey_app_notin, lookupKey_head).
    split; [|exact Hp].
    unfold keys. rewrite map_app. simpl. apply findKey_first.
    - intros k Hk. unfold isTitleKey.
      rewrite lookupKey_app_in by exact Hk.
      destruct (lookupKey_In_Some k before Hk) as [q Hq]. rewrite Hq.
      apply lookupKey_Some_entry in Hq.
      rewrite List.Forall_forall in Hbefore. apply (Hbefore _ Hq).
    - unfold isTitleKey. by rewrite Hp. }
  split; [|split].
  - intros before key p after spans Hbefore Hfresh Htitle Hspans.
    destruct (Hfound before key p after Hbefore Hfresh Htitle) as [Hf Hp].
    unfold getNotionPageTitle. by rewrite Hf, Hp, Hspans.
  - intros before key p after v Hbefore Hfresh Htitle Hv.
    destruct (Hfound before key p after Hbefore Hfresh Htitle) as [Hf Hp].
    unfold getNotionPageTitle. by rewrite Hf, Hp, Hv.
  - intros properties Hall. unfold getNotionPageTitle.
    rewrite findKey_none; [done|].
    intros key Hkey. unfold isTitleKey.
    destruct (lookupKey_In_Some key properties Hkey) as [q Hq]. rewrite Hq.
    apply lookupKey_Some_entry in Hq.
    rewrite List.Forall_forall in Hall. apply (Hall _ Hq).
Qed.

Lemma title_is_first_title_property_witness :
  getNotionPageTitle [("Done", doneProperty); ("Name", titleProperty)]
  = inr "hi" /\
  getNotionPageTitle [("Done", doneProperty)] = inl TypeError.
Proof.
  destruct title_is_first_title_property as (Hfirst & _ & Hnone).
  split.
  - apply (Hfirst [("Done", doneProperty)] "Name" titleProperty []
             [helloSpan]).
    + by repeat constructor.
    + simpl. intuition discriminate.
    + reflexivity.
    + reflexivity.
  - apply Hnone. by repeat constructor.
Defined.

Lemma frontmatterValue_error value e :
  frontmatterValue value = inl e -> e = TypeError.
Proof.
  destruct value as [spans|[| |b|s|fields]]; simpl; try congruence.
  by destruct (truthy (get "remoteImage" fields)).
Qed.

Lemma frontmatterValue_nullish value :
  isNullish value = true -> frontmatterValue value = inl TypeError.
Proof. by destruct value as [spans|[| |b|s|fields]]. Qed.

Lemma frontmatterValue_defined value :
  isNullish value = false -> frontmatterValue value = inr (frontValue value).
Proof.
  destruct value as [spans|[| |b|s|fields]]; simpl; try done.
  by destruct (truthy (get "remoteImage" fields)).
Qed.

Lemma frontmatterKeys_nullish properties ks acc key np :
  (forall k, In k ks -> In k (keys properties)) ->
  In key ks ->
  lookupKey key properties = Some np ->
  isNullish (np_value np) = true ->
  frontmatterKeys ks properties acc = inl TypeError.
Proof.
  revert acc. induction ks as [|k ks IH]; intros acc Hin Hkey Hnp Hnull.
  { destruct Hkey. }
  simpl.
  destruct (lookupKey_In_Some k properties) as [q Hq]; [apply Hin; by left|].
  rewrite Hq.
  destruct (frontmatterValue (np_value q)) as [e|v] eqn:Hv.
  { by rewrite (frontmatterValue_error _ _ Hv). }
  apply IH; [intros k' Hk'; apply Hin; by right| |done|done].
  destruct Hkey as [->|]; [|done].
  rewrite Hnp in Hq. injection Hq as <-.
  rewrite frontmatterValue_nullish in Hv by done. discriminate.
Qed.

(** X13. Building the front matter reads a field of every property value,
    so a single normalized property whose value is null or undefined (an
    empty date, say) makes it throw a type error, whatever the other
    properties are. *)
Theorem frontmatter_rejects_nullish_value (title : string)
    (properties : list (string * NormalizedProperty)) (key : string)
    (np : NormalizedProperty) :
  lookupKey key properties = Some np ->
  isNullish (np_value np) = true ->
  frontmatterOf title properties = inl TypeError.
Proof.
  intros Hnp Hnull. unfold frontmatterOf.
  apply (frontmatterKeys_nullish properties _ _ key np); try done.
  by apply lookupKey_Some_In in Hnp.
Qed.

Lemma frontmatter_rejects_nullish_value_witness :
  frontmatterOf "Hi" [("Cover", coverProperty); ("Due", dueProperty)]
  = inl TypeError.
Proof.
  apply (frontmatter_rejects_nullish_value "Hi" _ "Due" dueProperty);
    reflexivity.
Defined.

Lemma sorted_before {A} (R : A -> A -> Prop) l x r :
  StronglySorted R (l ++ x :: r) -> Forall (fun y => R y x) l.
Proof.
  induction l as [|a l IH]; simpl; intros H; [constructor|].
  apply StronglySorted_inv in H as [Hs Ha]. constructor; [|by apply IH].
  rewrite List.Forall_forall in Ha. apply Ha, in_elt.
Qed.

Lemma keys_frontEntry_incl (f : string * NormalizedProperty -> bool) l k :
  In k (keys (map frontEntry (List.filter f l))) -> In k (keys l).
Proof.
  unfold keys. rewrite map_map. simpl.
  intros H. apply in_map_iff in H as (x & <- & Hx).
  apply filter_In in Hx as [Hx _]. apply in_map_iff. by exists x.
Qed.

Lemma insertIndexed_after {A} n key (a : A) (o rest : list (string * A)) k b :
  Forall (fun e => exists m, arrayIndex (fst e) = Some m /\ (m <? n)%N = true)
    o ->
  arrayIndex k = None ->
  insertIndexed n key a (o ++ (k, b) :: rest) = o ++ (key, a) :: (k, b) :: rest.
Proof.
  intros Ho Hk. induction Ho as [|[k' b'] o (m & Hm & Hlt) _ IH]; simpl.
  { by rewrite Hk. }
  simpl in Hm. by rewrite Hm, Hlt, IH.
Qed.

(** Adding an array index: everything listed so far is a smaller index. *)
Lemma assign_indexed title before key np n :
  ~ In key (keys before) ->
  Forall (fun e => precedes (fst e) key = true) before ->
  arrayIndex key = Some n ->
  assignKey key (frontValue (np_value np)) (frontmatterShape title before)
  = frontmatterShape title (before ++ [(key, np)]).
Proof.
  intros Hfresh Hbefore Hkey.
  assert (Hidx : Forall (fun e : string * NormalizedProperty =>
                           exists m, arrayIndex (fst e) = Some m
                                     /\ (m <? n)%N = true) before).
  { eapply List.Forall_impl; [|exact Hbefore]. intros e He. simpl in He.
    unfold precedes in He. rewrite Hkey in He.
    destruct (arrayIndex (fst e)) as [m|]; [by exists m | done]. }
  assert (Hall : forall l : list (string * NormalizedProperty),
             Forall (fun e => isIndexed e = true) l ->
             List.filter isIndexed l = l /\
             List.filter (fun e => negb (isIndexed e) && notTitleKey e) l = []
             /\ lookupKey "title" l = None).
  { induction 1 as [|[k q] l He _ (IH1 & IH2 & IH3)]; [done|].
    simpl. rewrite He, IH1, IH2. simpl. split; [done|]. split; [done|].
    destruct (String.eqb_spec k "title") as [->|_]; [|done].
    unfold isIndexed in He. simpl in He. discriminate. }
  assert (Hb : Forall (fun e : string * NormalizedProperty =>
                         isIndexed e = true) before).
  { eapply List.Forall_impl; [|exact Hidx]. intros e (m & Hm & _).
    unfold isIndexed. by rewrite Hm. }
  assert (Hb' : Forall (fun e : string * NormalizedProperty =>
                          isIndexed e = true) (before ++ [(key, np)])).
  { apply Forall_app. split; [done|]. constructor; [|done].
    unfold isIndexed. simpl. by rewrite Hkey. }
  unfold frontmatterShape.
  destruct (Hall _ Hb) as (-> & -> & ->).
  destruct (Hall _ Hb') as (-> & -> & ->).
  simpl map at 2. simpl map at 3.
  unfold assignKey. rewrite Hkey.
  assert (Hlook : lookupKey key
            (map frontEntry before ++ [("title", PValue (VString title))])
          = None).
  { destruct (lookupKey key _) as [v|] eqn:Hv; [|done].
    apply lookupKey_Some_In in Hv. unfold keys in Hv.
    rewrite map_app, in_app_iff in Hv. destruct Hv as [Hv|Hv].
    - exfalso. apply Hfresh.
      apply (keys_frontEntry_incl (fun _ => true) before key).
      replace (List.filter (fun _ => true) before) with before; [done|].
      clear. induction before as [|e l IH]; [done|]. simpl. by rewrite <- IH.
    - simpl in Hv. destruct Hv as [<-|[]]. discriminate. }
  rewrite Hlook.
  rewrite insertIndexed_after; [| |done].
  - by rewrite map_app, <- app_assoc.
  - apply List.Forall_map. eapply List.Forall_impl; [|exact Hidx]. by intros e.
Qed.

(** Adding a key that is no index: a new entry goes last, the key title
    takes the place of the title. *)
Lemma assign_named title before key np :
  ~ In key (keys before) ->
  arrayIndex key = None ->
  assignKey key (frontValue (np_value np)) (frontmatterShape title before)
  = frontmatterShape title (before ++ [(key, np)]).
Proof.
  intros Hfresh Hkey.
  assert (Hassign : forall (v : PropValue) o,
             assignKey key v o = setKey key v o).
  { intros v o. unfold assignKey. rewrite Hkey.
    by destruct (lookupKey key o). }
  rewrite Hassign. unfold frontmatterShape.
  rewrite !List.filter_app, !map_app. cbn [List.filter].
  assert (Hnot : isIndexed (key, np) = false)
    by (unfold isIndexed; simpl; by rewrite Hkey).
  rewrite Hnot. simpl negb. cbn [map andb]. rewrite List.app_nil_r.
  rewrite setKey_app_notin
    by (intros Hin; apply Hfresh; by apply keys_frontEntry_incl in Hin).
  f_equal.
  destruct (String.eqb_spec key "title") as [->|Hne].
  - rewrite setKey_head. simpl.
    rewrite lookupKey_app_notin, lookupKey_head by done.
    by rewrite List.app_nil_r.
  - assert (Hne' : String.eqb "title" key = false)
      by (apply String.eqb_neq; congruence).
    assert (Hk : notTitleKey (key, np) = true).
    { unfold notTitleKey. simpl. apply String.eqb_neq in Hne.
      by rewrite Hne. }
    rewrite Hk. cbn [setKey map]. rewrite Hne'.
    f_equal.
    + f_equal. destruct (lookupKey "title" before) as [q|] eqn:Hq.
      * apply lookupKey_Some_In in Hq as Hin.
        by rewrite lookupKey_app_in, Hq.
      * rewrite lookupKey_app_notin.
        -- simpl. apply String.eqb_neq in Hne. by rewrite Hne.
        -- intros Hin. apply lookupKey_In_Some in Hin as [q' Hq'].
           congruence.
    + apply setKey_notin. intros Hin.
      apply Hfresh. by apply keys_frontEntry_incl in Hin.
Qed.

Lemma frontmatterKeys_run title before todo :
  List.NoDup (keys (before ++ todo)) ->
  enumerated (before ++ todo) ->
  Forall (fun entry => isNullish (np_value (snd entry)) = false) todo ->
  frontmatterKeys (keys todo) (before ++ todo) (frontmatterShape title before)
  = inr (frontmatterShape title (before ++ todo)).
Proof.
  revert before.
  induction todo as [|[key np] todo IH]; intros before Hnodup Hsorted Hall.
  { simpl. by rewrite List.app_nil_r. }
  assert (Hfresh : ~ In key (keys before)).
  { unfold keys in *. rewrite map_app in Hnodup. simpl in Hnodup.
    apply List.NoDup_remove_2 in Hnodup. rewrite in_app_iff in Hnodup.
    tauto. }
  assert (Hbefore : Forall (fun e => precedes (fst e) key = true) before).
  { apply (sorted_before _ _ _ _ Hsorted). }
  inversion Hall as [|? ? Hnp Hrest]; subst. simpl in Hnp.
  change (keys ((key, np) :: todo)) with (key :: keys todo).
  cbn [frontmatterKeys].
  rewrite lookupKey_app_notin, lookupKey_head by done.
  rewrite frontmatterValue_defined by done.
  assert (Hstep : assignKey key (frontValue (np_value np))
                    (frontmatterShape title before)
                  = frontmatterShape title (before ++ [(key, np)])).
  { destruct (arrayIndex key) as [n|] eqn:Hkey.
    - by eapply assign_indexed.
    - by apply assign_named. }
  rewrite Hstep.
  replace (before ++ (key, np) :: todo)
    with ((before ++ [(key, np)]) ++ todo) in * by (by rewrite <- app_assoc).
  by apply IH.
Qed.

(** X14. When the normalized properties, listed as their keys are
    enumerated, have distinct keys and defined values, the front matter
    holds, in the order its own keys are enumerated: the properties keyed
    by an array index, then the title, then the other properties in their
    order; each property contributes the remoteImage field of its value
    when that field is truthy and the value itself otherwise; a property
    that is itself keyed title adds no entry but replaces the page title
    in the title entry. *)
Theorem frontmatter_lists_title_then_properties (title : string)
    (properties : list (string * NormalizedProperty)) :
  List.NoDup (keys properties) ->
  enumerated properties ->
  Forall (fun entry => isNullish (np_value (snd entry)) = false) properties ->
  frontmatterOf title properties = inr (frontmatterShape title properties).
Proof.
  intros Hnodup Hsorted Hall. unfold frontmatterOf.
  exact (frontmatterKeys_run title [] properties Hnodup Hsorted Hall).
Qed.

Lemma frontmatter_lists_title_then_properties_witness :
  frontmatterOf "Hi"
    [("2021", yearProperty); ("Cover", coverProperty);
     ("title", shadowProperty)]
  = inr [("2021", PValue (VString "done"));
         ("title", PValue (VString "shadow"));
         ("Cover", PValue (VString "https://img/1.png"))].
Proof.
  rewrite (frontmatter_lists_title_then_properties "Hi"
             [("2021", yearProperty); ("Cover", coverProperty);
              ("title", shadowProperty)]).
  - vm_compute. reflexivity.
  - simpl. repeat constructor; simpl; intuition discriminate.
  - repeat constructor.
  - by repeat constructor.
Defined.

(** X15. Pages are turned into nodes in order, and the first page whose
    processing throws ends the iteration: the nodes of the pages before it
    have been added, none is added for it or for any page after it, and
    the exception is the outcome. *)
Theorem pages_are_added_until_first_failure
    (stringify : list (string * PropValue) -> string) (scope : Scope)
    (options : Options) (good : list Page) (added : list Node) :
  Forall2 (fun page node => pageNode stringify scope options page = inr node)
    good added ->
  (forall nodes,
     addPages stringify scope options good nodes = (nodes ++ added, None)) /\
  (forall bad e rest nodes,
     pageNode stringify scope options bad = inl e ->
     addPages stringify scope options (good ++ bad :: rest) nodes
     = (nodes ++ added, Some e)).
Proof.
  induction 1 as [|page node good added Hpage _ [IHall IHfail]].
  - split; intros; simpl.
    + by rewrite List.app_nil_r.
    + rewrite H. by rewrite List.app_nil_r.
  - split.
    + intros nodes. simpl. rewrite Hpage, IHall. by rewrite <- app_assoc.
    + intros bad e rest nodes Hbad. simpl. rewrite Hpage.
      rewrite (IHfail bad e rest _ Hbad). by rewrite <- app_assoc.
Qed.

Lemma plainPage_node id :
  pageNode noStringify moduleScope defaultOptions (plainPage id)
  = inr (mkNode ("NotionRecords-" +:+ id) "hi"
           [("Done", mkNormalized "b2" "Done" (PValue (VBool true))
                       "checkbox")]
           ("---" +:+ EOL_MD +:+ EOL_MD +:+ "---" +:+ EOL_MD +:+ EOL_MD)).
Proof. reflexivity. Qed.

Lemma pages_are_added_until_first_failure_witness :
  addPages noStringify moduleScope defaultOptions
    [plainPage "P1"; richPage; plainPage "P2"] []
  = ([mkNode "NotionRecords-P1" "hi"
        [("Done", mkNormalized "b2" "Done" (PValue (VBool true)) "checkbox")]
        ("---" +:+ EOL_MD +:+ EOL_MD +:+ "---" +:+ EOL_MD +:+ EOL_MD)],
     Some (ReferenceError "blockToString")).
Proof.
  apply (proj2 (pages_are_added_until_first_failure noStringify moduleScope
                  defaultOptions [plainPage "P1"] _
                  ltac:(constructor; [apply plainPage_node | constructor]))
           richPage (ReferenceError "blockToString") [plainPage "P2"] []).
  reflexivity.
Defined.

(** X16. As the module stands, a page with a rich-text-typed property
    never becomes a node: processing it throws, the type error of the title
    when the page has no usable title and the reference error of the
    normalizer otherwise, whatever the options; and the iteration over the
    pages stops there. *)
Theorem rich_text_page_yields_no_node
    (stringify : list (string * PropValue) -> string) (options : Options)
    (page : Page) (key : string) (p : Property) :
  lookupKey key (properties page) = Some p ->
  isRichText p = true ->
  pageNode stringify moduleScope options page
  = inl (match getNotionPageTitle (properties page) with
         | inl e => e
         | inr _ => ReferenceError "blockToString"
         end)
  /\ forall rest nodes,
       fst (addPages stringify moduleScope options (page :: rest) nodes)
       = nodes.
Proof.
  intros Hp Hrich.
  assert (Hnode : pageNode stringify moduleScope options page
                  = inl (match getNotionPageTitle (properties page) with
                         | inl e => e
                         | inr _ => ReferenceError "blockToString"
                         end)).
  { unfold pageNode.
    destruct (getNotionPageTitle (properties page)) as [e|title]; [done|].
    unfold getNotionPageProperties.
    rewrite (reduceKeys_moduleScope_raises (properties page)); [done|done|].
    exists key, p. split; [|done]. by apply lookupKey_Some_In in Hp. }
  split; [exact Hnode|].
  intros rest nodes. simpl. by rewrite Hnode.
Qed.

Lemma rich_text_page_yields_no_node_witness :
  pageNode noStringify moduleScope defaultOptions richPage
  = inl (ReferenceError "blockToString").
Proof.
  apply (proj1 (rich_text_page_yields_no_node noStringify defaultOptions
                  richPage "Summary" summaryProperty eq_refl eq_refl)).
Defined.

(* ===================================================================== *)
(** * Further properties of the fetcher *)
(* ===================================================================== *)

Lemma attachChildren_extends recur :
  (forall id log r,
     recur id log = Some r ->
     exists added, snd r = log ++ added /\ onlyGets added) ->
  forall blocks log r,
    attachChildren recur blocks log = Some r ->
    exists added, snd r = log ++ added /\ onlyGets added.
Proof.
  intros Hrec. induction blocks as [|b blocks IH]; intros log r; simpl.
  { intros [= <-]. exists []. split; [by rewrite List.app_nil_r|constructor]. }
  destruct (has_children b).
  - destruct (recur (block_id b) log) as [[cs log1]|] eqn:Hb; [|done].
    destruct (attachChildren recur blocks log1) as [[rest' log2]|] eqn:Hr;
      [|done].
    intros [= <-]. simpl.
    destruct (Hrec _ _ _ Hb) as (a1 & H1 & Hg1).
    destruct (IH _ _ Hr) as (a2 & H2 & Hg2). simpl in *. subst.
    exists (a1 ++ a2). split; [by rewrite app_assoc|by apply Forall_app].
  - destruct (attachChildren recur blocks log) as [[rest' log2]|] eqn:Hr;
      [|done].
    intros [= <-]. apply (IH _ _ Hr).
Qed.

Lemma getBlocksLoop_extends server fuel :
  forall id hasMore blockContent startCursor log r,
    getBlocksLoop server fuel id hasMore blockContent startCursor log = Some r ->
    exists added, snd r = log ++ added /\ onlyGets added.
Proof.
  assert (Hdone : forall (bc : list Block) (log : list Request),
             exists added, snd (bc, log) = log ++ added /\ onlyGets added).
  { intros. exists []. split; [by rewrite List.app_nil_r|constructor]. }
  assert (Hsnoc : forall log url (r : list Block * list Request),
             (exists added, snd r = (log ++ [Get url]) ++ added
                            /\ onlyGets added) ->
             exists added : list Request,
               snd r = log ++ added /\ onlyGets added).
  { intros log url r (a & Ha & Hg). exists (Get url :: a).
    split; [by rewrite Ha, <- app_assoc|by constructor]. }
  induction fuel as [|fuel IH]; intros id hasMore blockContent startCursor log r.
  { destruct hasMore; [done|]. rewrite getBlocksLoop_done.
    intros [= <-]. apply Hdone. }
  destruct hasMore; [|rewrite getBlocksLoop_done; intros [= <-]; apply Hdone].
  rewrite getBlocksLoop_S. cbv zeta.
  destruct (listChildren server log (Get (childrenUrl id startCursor)))
    as [|result].
  { intros H. eapply Hsnoc, IH, H. }
  destruct (results result) as [blocks|]; [|intros H; eapply Hsnoc, IH, H].
  destruct (attachChildren (getBlocks server fuel) blocks _)
    as [[blocks' log2]|] eqn:Hatt; [|done].
  intros H. apply IH in H as (a2 & H2 & Hg2).
  apply (attachChildren_extends (getBlocks server fuel)) in Hatt
    as (a1 & H1 & Hg1); [|intros cid l r'; apply IH].
  simpl in H1. subst log2. eapply Hsnoc. exists (a1 ++ a2).
  split; [by rewrite H2, app_assoc|by apply Forall_app].
Qed.

(** X17. Whatever the remote side answers, [getBlocks] never drops or
    rewrites a request already issued and never queries the record
    listing: when it returns, the log is the log it was given followed by
    requests that are all reads of block children. *)
Theorem getBlocks_only_adds_reads (server : Server) (fuel : nat)
    (id : string) (log : list Request) (blocks : list Block)
    (log' : list Request) :
  getBlocks server fuel id log = Some (blocks, log') ->
  exists added,
    log' = log ++ added /\
    Forall (fun request => isPost request = false) added.
Proof.
  intros H. apply getBlocksLoop_extends in H. exact H.
Qed.

Lemma getBlocks_only_adds_reads_witness :
  exists added,
    [Get url1; Get url2; Get url2; Get url3] = [] ++ added /\
    Forall (fun request => isPost request = false) added.
Proof.
  apply (getBlocks_only_adds_reads flakyServer 4 "b" [] [x1; x2; x3]).
  vm_compute. reflexivity.
Defined.

Lemma getBlocksLoop_never_stops server :
  neverStopsBlocks server ->
  forall fuel id blockContent startCursor log,
    getBlocksLoop server fuel id true blockContent startCursor log = None.
Proof.
  intros Hserver. induction fuel as [|fuel IH];
    intros id blockContent startCursor log; [done|].
  rewrite getBlocksLoop_S. cbv zeta.
  specialize (Hserver log (Get (childrenUrl id startCursor))).
  destruct (listChildren server log (Get (childrenUrl id startCursor)))
    as [|result]; [apply IH|].
  destruct (results result) as [blocks|]; [|apply IH].
  destruct Hserver as [|Hmore]; [done|]. rewrite Hmore.
  destruct (attachChildren _ blocks _) as [[blocks' log2]|]; [apply IH|done].
Qed.

Lemma getPagesLoop_never_stops server :
  neverStopsPages server ->
  forall fuel databaseId startCursor body pages log,
    getPagesLoop server fuel databaseId true startCursor body pages log = None.
Proof.
  intros Hserver. induction fuel as [|fuel IH];
    intros databaseId startCursor body pages log; [done|].
  rewrite getPagesLoop_S. cbv zeta.
  specialize (Hserver log (Post (queryUrl databaseId)
                             (nextBody startCursor body))).
  destruct (queryDatabase server log _) as [|result]; [apply IH|].
  rewrite Hserver.
  destruct (results result) as [found|]; [|apply IH].
  destruct (fetchChildren _ found _) as [[found' log2]|]; [apply IH|done].
Qed.

(** X18. Neither loop has a bound of its own: against a block listing
    whose every answer is a rejection, a body without results or a page
    reporting more, [getBlocks] does not return, however many iterations
    it is given; against a record listing whose every answer is a
    rejection or reports more, neither does [getPages]. *)
Theorem loops_run_while_listing_reports_more (server : Server) :
  (neverStopsBlocks server ->
   forall fuel id log, getBlocks server fuel id log = None) /\
  (neverStopsPages server ->
   forall fuel databaseId, getPages server fuel databaseId = None).
Proof.
  split.
  - intros H fuel id log. by apply getBlocksLoop_never_stops.
  - intros H fuel databaseId. by apply getPagesLoop_never_stops.
Qed.

Lemma loops_run_while_listing_reports_more_witness :
  getBlocks endlessServer 50 "b" [] = None /\
  getPages endlessServer 50 "db" = None.
Proof.
  destruct (loops_run_while_listing_reports_more endlessServer) as [Hb Hp].
  split.
  - apply Hb. intros log request. simpl. by right.
  - apply Hp. intros log request. reflexivity.
Defined.

(* ===================================================================== *)
(** * Further properties of the property normalizer *)
(* ===================================================================== *)

Lemma reduceKeys_moduleScope_returns properties ks acc :
  (forall key, In key ks -> In key (keys properties)) ->
  (forall key p, In key ks -> lookupKey key properties = Some p ->
                 isRichText p = false) ->
  exists out, reduceKeys moduleScope ks acc properties = Return out properties.
Proof.
  revert acc. induction ks as [|k ks IH]; intros acc Hin Hplain; simpl.
  { by eexists. }
  unfold normalizeKey.
  destruct (lookupKey_In_Some k properties) as [q Hq]; [apply Hin; by left|].
  rewrite Hq.
  assert (Hq' : isRichText q = false) by (apply (Hplain k); [by left|done]).
  unfold isRichText in Hq'. rewrite Hq'.
  destruct (String.eqb (prop_type q) "title"); simpl;
    apply IH; intros; first [apply Hin | eapply Hplain]; eauto; by right.
Qed.

(** X19. As the module stands, the normalizer never modifies the property
    map it is given: it throws the reference error exactly when some key
    leads to a rich-text-typed property and returns otherwise, and in both
    cases the map is left as it was. *)
Theorem shipped_normalizer_leaves_input
    (properties : list (string * Property)) :
  (hasRichText properties /\
   getNotionPageProperties moduleScope properties
   = Throw (ReferenceError "blockToString") properties) \/
  (~ hasRichText properties /\
   exists out,
     getNotionPageProperties moduleScope properties = Return out properties).
Proof.
  destruct (existsb (fun key =>
              match lookupKey key properties with
              | Some p => isRichText p
              | None => false
              end) (keys properties)) eqn:Hex.
  - left. apply existsb_exists in Hex as (key & Hkey & Hp).
    destruct (lookupKey key properties) as [p|] eqn:Hlook; [|done].
    split; [by exists key, p|].
    apply reduceKeys_moduleScope_raises; [done|]. by exists key, p.
  - right.
    assert (Hplain : forall key p,
               lookupKey key properties = Some p -> isRichText p = false).
    { intros key p Hlook. apply not_true_is_false. intros Hrich.
      apply not_true_iff_false in Hex. apply Hex, existsb_exists.
      exists key. split; [by eapply lookupKey_Some_In|]. by rewrite Hlook. }
    split.
    + intros (key & p & Hlook & Hrich).
      rewrite (Hplain _ _ Hlook) in Hrich. discriminate.
    + apply reduceKeys_moduleScope_returns; [done|].
      intros key p _. apply Hplain.
Qed.

Lemma setKey_Forall {A} (P : string * A -> Prop) key (a : A) o :
  P (key, a) -> Forall P o -> Forall P (setKey key a o).
Proof.
  intros Ha. induction 1 as [|[k b] o Hb Htail IH]; simpl.
  { by constructor. }
  destruct (String.eqb_spec k key) as [->|_]; by constructor.
Qed.

Lemma setKey_keys_incl {A} key (a : A) o k :
  In k (keys (setKey key a o)) -> k = key \/ In k (keys o).
Proof.
  induction o as [|[k' b] o IH]; simpl; [intuition congruence|].
  destruct (String.eqb_spec k' key) as [->|_]; simpl; [intuition congruence|].
  intros [->|H]; [tauto|]. apply IH in H. tauto.
Qed.

Lemma reduceKeys_wellFiled scope ks :
  forall acc properties out properties',
    Forall wellFiled acc ->
    reduceKeys scope ks acc properties = Return out properties' ->
    Forall wellFiled out /\
    (forall k, In k (keys out) -> In k (keys acc) \/ In k ks).
Proof.
  induction ks as [|key ks IH]; intros acc properties out properties' Hacc;
    simpl.
  { intros [= <- <-]. split; [done | tauto]. }
  destruct (normalizeKey scope acc key properties) as [acc1 props1|]
    eqn:Hstep; [|done].
  intros Hrun.
  assert (Hacc1 : Forall wellFiled acc1 /\
                  forall k, In k (keys acc1) -> In k (keys acc) \/ k = key).
  { unfold normalizeKey in Hstep.
    destruct (lookupKey key properties) as [p|]; [|done].
    destruct (String.eqb (prop_type p) "title") eqn:Htitle.
    { injection Hstep as <- <-. split; [done | tauto]. }
    assert (Hset : forall p', prop_type p' = prop_type p ->
               Forall wellFiled
                 (setKey key (mkNormalized (prop_id p') key (prop_value p')
                                (prop_type p')) acc)).
    { intros p' Htype. apply setKey_Forall; [|done].
      split; [done|]. simpl. by rewrite Htype. }
    destruct (String.eqb (prop_type p) "rich_text").
    - destruct scope as [f|]; [|done].
      destruct (f (prop_value p)) as [e|v]; [done|].
      injection Hstep as <- <-.
      split;
        [exact (Hset (mkProperty (prop_id p) (prop_type p) (PValue v))
                  eq_refl)|].
      intros k Hk. apply setKey_keys_incl in Hk. tauto.
    - injection Hstep as <- <-. split; [exact (Hset p eq_refl)|].
      intros k Hk. apply setKey_keys_incl in Hk. tauto. }
  destruct Hacc1 as [Hwf Hkeys].
  destruct (IH _ _ _ _ Hwf Hrun) as [Hout Hincl].
  split; [done|]. intros k Hk. apply Hincl in Hk as [Hk|Hk]; [|tauto].
  apply Hkeys in Hk as [Hk| ->]; [by left | right; by left].
Qed.

(** X20. Whenever the normalizer returns, under any resolution of the
    rendering call and for any property map, every entry of its output is
    filed under the key recorded in the entry, none is title-typed, and
    every output key is a key of the input. *)
Theorem normalized_entries_are_well_filed (scope : Scope)
    (properties : list (string * Property))
    (out : list (string * NormalizedProperty))
    (properties' : list (string * Property)) :
  getNotionPageProperties scope properties = Return out properties' ->
  Forall wellFiled out /\
  (forall key, In key (keys out) -> In key (keys properties)).
Proof.
  intros Hrun. unfold getNotionPageProperties in Hrun.
  destruct (reduceKeys_wellFiled scope _ [] properties out properties'
              (List.Forall_nil _) Hrun) as [Hout Hincl].
  split; [done|]. intros key Hkey. apply Hincl in Hkey as [[]|]. done.
Qed.

Lemma normalized_entries_are_well_filed_witness :
  Forall wellFiled (normalized (Some thisBlockToString) richProperties).
Proof.
  apply (proj1 (normalized_entries_are_well_filed (Some thisBlockToString)
                  richProperties _ _
                  (getNotionPageProperties_run (Some thisBlockToString)
                     richProperties (proj1 richProperties_wf)
                     (proj2 richProperties_wf)))).
Defined.
